(** * Verification of the market-data batch downloader

    Shallow embedding of [options_data_download.py] (class
    [MarketDataDownloader]) and proofs of the properties its
    specification states about it.

    The program:
    - [Calendar]   : the part of Python's [datetime.date] the program uses
                     (ordinals, weekday, [+ timedelta(days=1)], [<], [strftime]);
    - [Frame]      : the part of pandas' [DataFrame] the program uses
                     (column selection, boolean masks, [.empty]);
    - [Effects]    : commands, the program monad with [try]/[except], the
                     world (remote source and file system) and its semantics;
    - [Downloader] : the methods of [MarketDataDownloader];
    - [Pool]       : [download_data] and its thread pool, run under an
                     arbitrary schedule;
    - [Startup]    : the constructor, the login and [main].

    The proofs: the vocabulary of the specification, facts on the
    calendar, on classification, on programs and the file system, on one
    task, on the date range and on the pool, then the claims C1 to C10,
    each with the concrete input it is tried on, and last further
    properties of the program, X1 to X13. *)

From Stdlib Require Import ZArith Lia List String Ascii Bool Permutation.
From Stdlib Require Import DecimalString DecimalFacts DecimalPos.
From stdpp Require Import gmap strings list.

Local Open Scope Z_scope.

(* ===================================================================== *)
(** * Calendar: [datetime.date]                                           *)
(* ===================================================================== *)

Module Calendar.

(** A [date] object stores year, month and day. *)
Record date : Type := mkdate { year : Z; month : Z; day : Z }.

(** [datetime.MINYEAR] and [datetime.MAXYEAR] *)
Definition MINYEAR : Z := 1.
Definition MAXYEAR : Z := 9999.

(** [date.max.toordinal()] *)
Definition MAXORDINAL : Z := 3652059.

(** [_is_leap(year)] *)
Definition is_leap (y : Z) : bool :=
  (y mod 4 =? 0) && (negb (y mod 100 =? 0) || (y mod 400 =? 0)).

(** [_days_before_year(year)]: days before January 1st of [year]. *)
Definition days_before_year (y : Z) : Z :=
  let y' := y - 1 in y' * 365 + y' / 4 - y' / 100 + y' / 400.

(** [_DAYS_IN_MONTH[month]] *)
Definition DAYS_IN_MONTH (m : Z) : Z :=
  match m with
  | 1 => 31 | 2 => 28 | 3 => 31 | 4 => 30 | 5 => 31 | 6 => 30
  | 7 => 31 | 8 => 31 | 9 => 30 | 10 => 31 | 11 => 30 | 12 => 31
  | _ => 0
  end.

(** [_DAYS_BEFORE_MONTH[month]] *)
Definition DAYS_BEFORE_MONTH (m : Z) : Z :=
  match m with
  | 1 => 0 | 2 => 31 | 3 => 59 | 4 => 90 | 5 => 120 | 6 => 151
  | 7 => 181 | 8 => 212 | 9 => 243 | 10 => 273 | 11 => 304 | 12 => 334
  | _ => 0
  end.

(** [_days_in_month(year, month)] *)
Definition days_in_month (y m : Z) : Z :=
  if (m =? 2) && is_leap y then 29 else DAYS_IN_MONTH m.

(** [_days_before_month(year, month)] *)
Definition days_before_month (y m : Z) : Z :=
  DAYS_BEFORE_MONTH m + (if (2 <? m) && is_leap y then 1 else 0).

(** [_ymd2ord(year, month, day)]: 0001-01-01 is day 1. *)
Definition ymd2ord (y m d : Z) : Z :=
  days_before_year y + days_before_month y m + d.

Definition DI400Y : Z := 146097.
Definition DI100Y : Z := 36524.
Definition DI4Y : Z := 1461.

(** [_ord2ymd(n)] *)
Definition ord2ymd (n : Z) : date :=
  let n := n - 1 in
  let n400 := n / DI400Y in
  let n := n mod DI400Y in
  let y := n400 * 400 + 1 in
  let n100 := n / DI100Y in
  let n := n mod DI100Y in
  let n4 := n / DI4Y in
  let n := n mod DI4Y in
  let n1 := n / 365 in
  let n := n mod 365 in
  let y := y + n100 * 100 + n4 * 4 + n1 in
  if (n1 =? 4) || (n100 =? 4) then mkdate (y - 1) 12 31
  else
    let leapyear := (n1 =? 3) && (negb (n4 =? 24) || (n100 =? 3)) in
    let m := Z.shiftr (n + 50) 5 in
    let preceding :=
      DAYS_BEFORE_MONTH m + (if (2 <? m) && leapyear then 1 else 0) in
    if n <? preceding then
      let m := m - 1 in
      let preceding :=
        preceding - (DAYS_IN_MONTH m + (if (m =? 2) && leapyear then 1 else 0)) in
      mkdate y m (n - preceding + 1)
    else mkdate y m (n - preceding + 1).

(** The dates the [date] constructor accepts. *)
Definition valid (d : date) : Prop :=
  MINYEAR <= year d <= MAXYEAR /\ 1 <= month d <= 12 /\
  1 <= day d <= days_in_month (year d) (month d).

(** The same, as a test. *)
Definition validb (d : date) : bool :=
  (MINYEAR <=? year d) && (year d <=? MAXYEAR) &&
  (1 <=? month d) && (month d <=? 12) &&
  (1 <=? day d) && (day d <=? days_in_month (year d) (month d)).

(** [date.toordinal()] and [date.fromordinal(n)] *)
Definition toordinal (d : date) : Z := ymd2ord (year d) (month d) (day d).
Definition fromordinal (n : Z) : date := ord2ymd n.

(** [date.weekday()]: Monday is 0, Sunday is 6. *)
Definition weekday (d : date) : Z := (toordinal d + 6) mod 7.

(** [d1 < d2] compares (year, month, day) lexicographically. *)
Definition date_ltb (a b : date) : bool :=
  (year a <? year b) ||
  ((year a =? year b) &&
   ((month a <? month b) || ((month a =? month b) && (day a <? day b)))).

(** [a < b] and [a <= b] as propositions. *)
Definition date_lt (a b : date) : Prop := date_ltb a b = true.
Definition date_le (a b : date) : Prop := date_ltb b a = false.

(** [d + timedelta(days=n)]: [None] stands for the [OverflowError] that
    Python raises when the result leaves [date.min .. date.max]. *)
Definition add_days (d : date) (n : Z) : option date :=
  let o := toordinal d + n in
  if (0 <? o) && (o <=? MAXORDINAL) then Some (fromordinal o) else None.

(** [str(n)] for an integer. *)
Definition str (n : Z) : string := NilZero.string_of_int (Z.to_int n).

(** Left padding with zeros up to [width] characters ([%02d]). *)
Fixpoint zeros (k : nat) : string :=
  match k with O => EmptyString | S k' => String "0" (zeros k') end.

Definition zfill (width : nat) (s : string) : string :=
  (zeros (width - String.length s) +:+ s)%string.

(** [date.strftime(fmt)] for the directives the program uses: [%d] and [%m]
    are two digits wide and zero padded; [%Y] is the year as the C library
    prints it, a decimal number without padding: four digits from the year
    1000 on, and [999] for the year 999.  Every other character is
    copied. *)
Fixpoint strftime (fmt : string) (d : date) : string :=
  match fmt with
  | EmptyString => EmptyString
  | String "%" (String c rest) =>
      ((if Ascii.eqb c "d" then zfill 2 (str (day d))
        else if Ascii.eqb c "m" then zfill 2 (str (month d))
        else if Ascii.eqb c "Y" then str (year d)
        else String "%" (String c EmptyString)) +:+ strftime rest d)%string
  | String c rest => String c (strftime rest d)
  end.

End Calendar.

(* ===================================================================== *)
(** * Frame: the part of pandas the program uses                          *)
(* ===================================================================== *)

Module Frame.

(** A raised Python exception, an instance of [Exception]: its class and
    [str(e)].  ([KeyboardInterrupt] and [SystemExit], which
    [except Exception] lets through, are outside the model.) *)
Record exc : Type := mkexc { exc_class : string; exc_msg : string }.

(** Either an exception was raised or a value was returned. *)
Definition result (A : Type) : Type := (exc + A)%type.
Abbreviation ret a := (@inr exc _ a).
Abbreviation raise e := (@inl exc _ e).
Definition rbind {A B : Type} (r : result A) (k : A -> result B) : result B :=
  match r with inl e => inl e | inr a => k a end.

Declare Scope result_scope.
Delimit Scope result_scope with result.
Notation "x <- e ;; k" := (rbind e (fun x => k))
  (at level 100, e at next level, right associativity) : result_scope.

(** A cell of a frame.  The program inspects cells only by comparing the
    [symbol] column with a string; numbers and missing values are carried
    along untouched.  [Null] is a missing value of a column of plain Python
    objects or of floats ([None], [NaN]); [NA] is the missing value [<NA>]
    of a column of a nullable dtype ([string], [Int64], [boolean]). *)
Inductive cell : Type :=
| Str (s : string)
| Num (x : Z)
| Null
| NA.

(** A frame: column labels and rows, each row holding one cell per label.
    A label is looked up at its first position, which is what pandas does
    when the labels are distinct; what is said of the frames that
    [process_data] returns is said of frames with distinct labels. *)
Record DataFrame : Type := mkframe { columns : list string; rows : list (list cell) }.

(** The position of a label among the columns. *)
Fixpoint get_loc (label : string) (cols : list string) : option nat :=
  match cols with
  | [] => None
  | c :: cs => if String.eqb c label then Some O else option_map S (get_loc label cs)
  end.

(** The exception of a lookup that fails, naming the absent labels. *)
Definition KeyError (labels : list string) : exc :=
  mkexc "KeyError" ("not in index: " +:+ String.concat ", " labels).

(** The labels that are not among the columns. *)
Definition missing (labels cols : list string) : list string :=
  List.filter (fun l => negb (existsb (String.eqb l) cols)) labels.

(** The cell of a row under a label. *)
Definition take_cell (cols : list string) (row : list cell) (label : string) : cell :=
  match get_loc label cols with
  | Some j => nth j row Null
  | None => Null
  end.

(** [df[labels]] with a list of labels: the frame restricted to these
    columns, in this order; [KeyError] when a label is absent. *)
Definition getitem_labels (df : DataFrame) (labels : list string) : result DataFrame :=
  match missing labels (columns df) with
  | [] => ret (mkframe labels
                 (map (fun row => map (take_cell (columns df) row) labels) (rows df)))
  | ms => raise (KeyError ms)
  end.

(** [df[label]]: one column as a series. *)
Definition getitem_label (df : DataFrame) (label : string) : result (list cell) :=
  match get_loc label (columns df) with
  | Some j => ret (map (fun row => nth j row Null) (rows df))
  | None => raise (KeyError [label])
  end.

(** An entry of a boolean series: [Some true], [Some false], or [None]
    for [<NA>]. *)
Definition entry : Type := option bool.

(** [c == x] and [c != x] for a string [x], entry by entry: only a
    string with the same characters is equal to [x]; a missing value of an
    object column is not equal to it; and against [<NA>] both comparisons
    give [<NA>]. *)
Definition cell_eq (c : cell) (x : string) : entry :=
  match c with
  | Str v => Some (String.eqb v x)
  | NA => None
  | _ => Some false
  end.

Definition cell_ne (c : cell) (x : string) : entry :=
  match c with
  | Str v => Some (negb (String.eqb v x))
  | NA => None
  | _ => Some true
  end.

(** [series == x] and [series != x]. *)
Definition series_eq (s : list cell) (x : string) : list entry :=
  map (fun c => cell_eq c x) s.

Definition series_ne (s : list cell) (x : string) : list entry :=
  map (fun c => cell_ne c x) s.

(** [a & b] on entries: false when one of them is false, true when both
    are true, [<NA>] otherwise. *)
Definition entry_and (a b : entry) : entry :=
  match a, b with
  | Some false, _ | _, Some false => Some false
  | Some true, Some true => Some true
  | _, _ => None
  end.

(** [m1 & m2] *)
Fixpoint mask_and (a b : list entry) : list entry :=
  match a, b with
  | x :: a', y :: b' => entry_and x y :: mask_and a' b'
  | _, _ => []
  end.

(** The rows at the positions where the mask is true; a row whose
    entry is false or [<NA>] is left out. *)
Fixpoint select_rows (mask : list entry) (rs : list (list cell)) : list (list cell) :=
  match mask, rs with
  | Some true :: mask', r :: rs' => r :: select_rows mask' rs'
  | _ :: mask', _ :: rs' => select_rows mask' rs'
  | _, _ => []
  end.

(** [df[mask]] with a boolean series: the rows where the mask holds. *)
Definition getitem_mask (df : DataFrame) (mask : list entry) : result DataFrame :=
  if Nat.eqb (length mask) (length (rows df))
  then ret (mkframe (columns df) (select_rows mask (rows df)))
  else raise (mkexc "ValueError" "Item wrong length").

(** [df.empty]: some axis has length zero. *)
Definition empty (df : DataFrame) : bool :=
  Nat.eqb (length (columns df)) 0 || Nat.eqb (length (rows df)) 0.

(** [s.lower()] on ASCII text. *)
Definition lower_ascii (c : ascii) : ascii :=
  let n := N_of_ascii c in
  if (65 <=? n)%N && (n <=? 90)%N then ascii_of_N (n + 32) else c.

Fixpoint lower (s : string) : string :=
  match s with
  | EmptyString => EmptyString
  | String c rest => String (lower_ascii c) (lower rest)
  end.

End Frame.

(* ===================================================================== *)
(** * Effects: commands, programs, the world                              *)
(* ===================================================================== *)

Module Effects.
Import Calendar Frame.

(** A [pathlib.Path], as its parts below the file-system root; a part is
    taken to hold no separator. *)
Abbreviation path := (list string).

(** [p / s] *)
Definition joinpath (p : path) (s : string) : path := p ++ [s].
Infix "/:" := joinpath (at level 40, left associativity).

(** The levels of the [logging] module that the program uses. *)
Inductive level : Type := INFO | WARNING | ERROR.

(** What a method can ask of its surroundings, indexed by the type of the
    answer: a line for the logger, [Path.mkdir(parents=True, exist_ok=True)],
    [self.ma.get_data(code, date)], and [DataFrame.to_csv(path, index=False)]. *)
Inductive cmd : Type -> Type :=
| Log (lvl : level) (msg : string) : cmd unit
| Mkdir (p : path) : cmd unit
| GetData (code : string) (d : date) : cmd DataFrame
| ToCsv (p : path) (df : DataFrame) : cmd unit.

(** The observable trace of a command. *)
Inductive event : Type :=
| EvLog (lvl : level) (msg : string)
| EvMkdir (p : path)
| EvFetch (code : string) (d : date)
| EvWrite (p : path) (df : DataFrame).

(** The event a command leaves in the trace. *)
Definition event_of {R : Type} (c : cmd R) : event :=
  match c with
  | Log lvl msg => EvLog lvl msg
  | Mkdir p => EvMkdir p
  | GetData code d => EvFetch code d
  | ToCsv p df => EvWrite p df
  end.

(** A method body: it returns, raises, or issues a command and goes on
    with the answer, which is the command's value or the exception the
    command raised. *)
Inductive prog (A : Type) : Type :=
| Ret (a : A)
| Raise (e : exc)
| Do {R : Type} (c : cmd R) (k : result R -> prog A).

Arguments Ret {A} a.
Arguments Raise {A} e.
Arguments Do {A R} c k.

Fixpoint bind {A B : Type} (p : prog A) (f : A -> prog B) : prog B :=
  match p with
  | Ret a => f a
  | Raise e => Raise e
  | Do c k => Do c (fun r => bind (k r) f)
  end.

(** A command whose exception propagates to the caller. *)
Definition call {R : Type} (c : cmd R) : prog R :=
  Do c (fun r => match r with inl e => Raise e | inr v => Ret v end).

(** A pure computation that may raise. *)
Definition lift {A : Type} (r : result A) : prog A :=
  match r with inl e => Raise e | inr a => Ret a end.

(** [try: p  except Exception as e: h e] *)
Fixpoint try_except {A : Type} (p : prog A) (h : exc -> prog A) : prog A :=
  match p with
  | Ret a => Ret a
  | Raise e => h e
  | Do c k => Do c (fun r => try_except (k r) h)
  end.

Declare Scope prog_scope.
Delimit Scope prog_scope with prog.
Notation "x <- e ;; k" := (bind e (fun x => k))
  (at level 100, e at next level, right associativity) : prog_scope.
Notation "e ;; k" := (bind e (fun _ => k))
  (at level 100, right associativity) : prog_scope.

(** The world a program runs in: the remote data source behind
    [self.ma], and the file system as its directories and files. *)
Record world : Type := mkworld {
  remote : string -> date -> result DataFrame;
  dirs : gset path;
  files : gmap path DataFrame
}.

(** The non-empty prefixes of a path, shortest first. *)
Fixpoint prefixes (p : path) : list path :=
  match p with
  | [] => []
  | s :: rest => [s] :: map (cons s) (prefixes rest)
  end.

(** [p.is_file()] and [p.is_dir()]; the root is a directory. *)
Definition is_file (w : world) (p : path) : bool :=
  bool_decide (is_Some (files w !! p)).
Definition is_dir (w : world) (p : path) : bool :=
  bool_decide (p = [] \/ p ∈ dirs w).

(** [p.mkdir(parents=True, exist_ok=True)]: every missing directory on the
    way to [p] is created and existing ones are left alone; it raises (an
    [OSError] of the operating system, whose text plays no role) only when
    a file stands where a directory is needed. *)
Definition mkdir (p : path) (w : world) : world * result unit :=
  if existsb (is_file w) (prefixes p)
  then (w, raise (mkexc "OSError" "File exists"))
  else (mkworld (remote w) (dirs w ∪ list_to_set (prefixes p)) (files w), ret tt).

(** [df.to_csv(p, index=False)]: the file at [p] is created or replaced;
    it raises when [p] is a directory or its parent directory is missing. *)
Definition to_csv (p : path) (df : DataFrame) (w : world) : world * result unit :=
  if is_dir w p then (w, raise (mkexc "OSError" "Is a directory"))
  else if is_dir w (removelast p)
       then (mkworld (remote w) (dirs w) (<[p := df]> (files w)), ret tt)
       else (w, raise (mkexc "OSError" "Cannot save file into a non-existent directory")).

(** What a command does to the world, and its answer. *)
Definition exec {R : Type} (c : cmd R) (w : world) : world * result R :=
  match c in cmd R return world * result R with
  | Log _ _ => (w, ret tt)
  | Mkdir p => mkdir p w
  | GetData code d => (w, remote w code d)
  | ToCsv p df => to_csv p df w
  end.

(** Running a program alone: the final world, the events in order, and
    the value returned or the exception that escaped. *)
Fixpoint run {A : Type} (p : prog A) (w : world) : world * list event * result A :=
  match p with
  | Ret a => (w, [], ret a)
  | Raise e => (w, [], raise e)
  | Do c k =>
      let '(w1, r) := exec c w in
      let '(w2, tr, res) := run (k r) w1 in
      (w2, event_of c :: tr, res)
  end.

End Effects.

(* ===================================================================== *)
(** * Downloader: the methods of [MarketDataDownloader]                   *)
(* ===================================================================== *)

Module Downloader.
Import Calendar Frame Effects.

(** [self]: [self.base_path]; [self.ma] is the world's remote source and
    [self.logger] the [Log] command. *)
Record MarketDataDownloader : Type := mkself { base_path : path }.

(** The dictionary [create_directory_structure] returns, keys ['fut'],
    ['spot'] and ['options']. *)
Record directories : Type := mkdirs { dir_fut : path; dir_spot : path; dir_options : path }.

(** The dictionary [process_data] returns, keys ['futures'], ['spot']
    and ['options']. *)
Record data_dict : Type :=
  mkdata { futures : DataFrame; spot : DataFrame; options : DataFrame }.

(** A failure as a task reports it: [(date, instrument, str(e))]. *)
Definition failure : Type := (date * string * string)%type.

(** [create_directory_structure(self, date, instrument)]: the three
    paths, then [mkdir] on each in the order of the dictionary. *)
Definition create_directory_structure
  (self : MarketDataDownloader) (d : date) (instrument : string) : prog directories :=
  let directories :=
    mkdirs
      (base_path self /: (lower instrument +:+ "_fut") /: str (year d) /: str (month d))
      (base_path self /: (lower instrument +:+ "_spot") /: str (year d) /: str (month d))
      (base_path self /: (lower instrument +:+ "_options") /: str (year d) /: str (month d)) in
  (call (Mkdir (dir_fut directories)) ;;
   call (Mkdir (dir_spot directories)) ;;
   call (Mkdir (dir_options directories)) ;;
   Ret directories)%prog.

(** The two lists of column labels of [process_data]. *)
Definition base_columns : list string :=
  ["date"; "time"; "symbol"; "open"; "high"; "low"; "close"; "oi"; "volume"].

Definition spot_columns : list string :=
  ["date"; "time"; "symbol"; "open"; "high"; "low"; "close"].

(** [process_data(self, data, instrument)]: the projection on the base
    columns, then the three selections in the order in which Python
    evaluates the dictionary display. *)
Definition process_data (data : DataFrame) (instrument : string) : result data_dict :=
  (data <- getitem_labels data base_columns ;;
   let spot_symbol := instrument in
   let futures_symbol := (instrument +:+ "-I")%string in
   s1 <- getitem_label data "symbol" ;;
   fut <- getitem_mask data (series_eq s1 futures_symbol) ;;
   s2 <- getitem_label data "symbol" ;;
   spot_rows <- getitem_mask data (series_eq s2 spot_symbol) ;;
   spt <- getitem_labels spot_rows spot_columns ;;
   s3 <- getitem_label data "symbol" ;;
   s4 <- getitem_label data "symbol" ;;
   opt <- getitem_mask data (mask_and (series_ne s3 spot_symbol) (series_ne s4 futures_symbol)) ;;
   ret (mkdata fut spt opt))%result.

(** [save_data(self, data_dict, directories, date, instrument)]: one
    [to_csv] for each group that is not empty. *)
Definition save_data (data : data_dict) (dirs : directories) (d : date)
  (instrument : string) : prog unit :=
  let date_str := strftime "%d_%m_%Y" d in
  ((if negb (empty (futures data))
    then call (ToCsv (dir_fut dirs /: (lower instrument +:+ "_fut_" +:+ date_str +:+ ".csv"))
                 (futures data))
    else Ret tt) ;;
   (if negb (empty (spot data))
    then call (ToCsv (dir_spot dirs /: (lower instrument +:+ "_spot_" +:+ date_str +:+ ".csv"))
                 (spot data))
    else Ret tt) ;;
   (if negb (empty (options data))
    then call (ToCsv (dir_options dirs /:
                      (lower instrument +:+ "_options_" +:+ date_str +:+ ".csv"))
                 (options data))
    else Ret tt))%prog.

(** [date.weekday() in [5, 6]] *)
Definition is_weekend (d : date) : bool := (weekday d =? 5) || (weekday d =? 6).

(** The body of the [try] block of [download_single_date_instrument]. *)
Definition task_body (self : MarketDataDownloader) (d : date) (instrument : string)
  : prog (option failure) :=
  (if is_weekend d
   then
     call (Log INFO ("Skipping weekend: " +:+ strftime "%d/%m/%Y" d)) ;;
     Ret None
   else
     call (Log INFO ("Processing " +:+ instrument +:+ " for date: " +:+ strftime "%d/%m/%Y" d)) ;;
     directories <- create_directory_structure self d instrument ;;
     raw_data <- call (GetData (lower instrument) d) ;;
     processed_data <- lift (process_data raw_data instrument) ;;
     save_data processed_data directories d instrument ;;
     Ret None)%prog.

(** The [except Exception as e] clause. *)
Definition task_handler (d : date) (instrument : string) (e : exc) : prog (option failure) :=
  (call (Log ERROR ("Error processing " +:+ instrument +:+ " for " +:+
                    strftime "%d/%m/%Y" d +:+ ": " +:+ exc_msg e)) ;;
   Ret (Some (d, instrument, exc_msg e)))%prog.

(** [download_single_date_instrument(self, date, instrument)]: the
    [try] block under its handler. *)
Definition download_single_date_instrument
  (self : MarketDataDownloader) (d : date) (instrument : string) : prog (option failure) :=
  try_except (task_body self d instrument) (task_handler d instrument).

End Downloader.

(* ===================================================================== *)
(** * Pool: [download_data] and its thread pool                           *)
(* ===================================================================== *)

Module Pool.
Import Calendar Frame Effects Downloader.

(** The [while current_date < end_date] loop.  [fuel] bounds the number
    of iterations; the outer [None] means the bound was too small, an
    inner exception is the [OverflowError] of [current_date + timedelta]. *)
Fixpoint date_loop (fuel : nat) (current_date end_date : date)
  : option (result (list date)) :=
  if date_ltb current_date end_date then
    match fuel with
    | O => None
    | S fuel' =>
        match add_days current_date 1 with
        | None => Some (raise (mkexc "OverflowError" "date value out of range"))
        | Some next =>
            match date_loop fuel' next end_date with
            | Some (inr dates) => Some (ret (current_date :: dates))
            | other => other
            end
        end
    end
  else Some (ret []).

(** One iteration per day between the two dates. *)
Definition date_range (start_date end_date : date) : option (result (list date)) :=
  date_loop (Z.to_nat (toordinal end_date - toordinal start_date)) start_date end_date.

(** [[(date, instrument) for date in dates for instrument in instruments]] *)
Definition make_tasks (dates : list date) (instruments : list string)
  : list (date * string) :=
  flat_map (fun d => map (fun i => (d, i)) instruments) dates.

(** Who issued a command: the thread of [download_data] or the worker
    running the task submitted at position [k]. *)
Inductive thread : Type := Main | Worker (k : nat).

(** The executor: submitted tasks not yet taken by a worker (first in,
    first out), the tasks being run with what remains of each, the
    futures that are done, in the order [as_completed] yields them (here
    the order of completion; no statement below depends on it), the
    world, and the events so far.  Each task carries the position at
    which it was submitted. *)
Record pool : Type := mkpool {
  queue : list (nat * (date * string));
  active : list (nat * prog (option failure));
  finished : list (nat * result (option failure));
  pworld : world;
  ptrace : list (thread * event)
}.

(** All tasks submitted, none started. *)
Definition submit_all (tasks : list (date * string)) (w : world) : pool :=
  mkpool (zip (seq 0 (length tasks)) tasks) [] [] w [].

(** A free worker takes the oldest submitted task. *)
Definition start_next (self : MarketDataDownloader) (st : pool) : pool :=
  match queue st with
  | [] => st
  | (k, (d, instrument)) :: q =>
      mkpool q (active st ++ [(k, download_single_date_instrument self d instrument)])
        (finished st) (pworld st) (ptrace st)
  end.

(** The worker at position [i] takes one step: it issues its next
    command, or it is done and its future completes. *)
Definition step_worker (i : nat) (st : pool) : pool :=
  match active st !! i with
  | None => st
  | Some (k, Ret r) =>
      mkpool (queue st) (delete i (active st)) (finished st ++ [(k, ret r)])
        (pworld st) (ptrace st)
  | Some (k, Raise e) =>
      mkpool (queue st) (delete i (active st)) (finished st ++ [(k, raise e)])
        (pworld st) (ptrace st)
  | Some (k, Do c cont) =>
      let '(w', r) := exec c (pworld st) in
      mkpool (queue st) (<[i := (k, cont r)]> (active st)) (finished st)
        w' (ptrace st ++ [(Worker k, event_of c)])
  end.

(** A task is waiting and fewer than [max_workers] are running. *)
Definition can_start (max_workers : nat) (st : pool) : bool :=
  negb (Nat.eqb (length (queue st)) 0) && Nat.ltb (length (active st)) max_workers.

(** One scheduling decision: [choice] picks among the moves that are
    possible, taking a task off the queue when a worker is free or
    letting one of the running workers step. *)
Definition pool_step (self : MarketDataDownloader) (max_workers : nat) (choice : nat)
  (st : pool) : pool :=
  let n_moves := ((if can_start max_workers st then 1 else 0) + length (active st))%nat in
  match n_moves with
  | O => st
  | _ =>
      let m := (choice mod n_moves)%nat in
      if can_start max_workers st
      then match m with O => start_next self st | S i => step_worker i st end
      else step_worker m st
  end.

(** Nothing is waiting and nothing is running. *)
Definition drained (st : pool) : bool :=
  Nat.eqb (length (queue st)) 0 && Nat.eqb (length (active st)) 0.

(** The pool runs under a schedule, one decision per step, until every
    task is done; [None] when the schedule ends before that. *)
Fixpoint run_pool (self : MarketDataDownloader) (max_workers : nat) (sched : list nat)
  (st : pool) : option pool :=
  if drained st then Some st
  else match sched with
       | [] => None
       | choice :: sched' =>
           run_pool self max_workers sched' (pool_step self max_workers choice st)
       end.

(** [for future in as_completed(futures): result = future.result();
    if result: errors.append(result)] *)
Fixpoint collect (done : list (nat * result (option failure))) : result (list failure) :=
  match done with
  | [] => ret []
  | (_, inl e) :: _ => raise e
  | (_, inr None) :: rest => collect rest
  | (_, inr (Some f)) :: rest =>
      match collect rest with
      | inl e => raise e
      | inr errors => ret (f :: errors)
      end
  end.

(** The closing [if errors:] block: one header line, one line per failure. *)
Definition report_log (errors : list failure) : list (thread * event) :=
  match errors with
  | [] => []
  | _ =>
      (Main, EvLog ERROR "Errors occurred during download:") ::
      map (fun f : failure =>
             let '(d, instrument, error) := f in
             (Main, EvLog ERROR (instrument +:+ " - " +:+ strftime "%d/%m/%Y" d +:+
                                 ": " +:+ error)))
          errors
  end.

(** [download_data(start_date, end_date, instruments, max_workers)] under
    the schedule [sched] of its pool.  [None]: the schedule was too short
    for the pool to drain. *)
Definition download_data (self : MarketDataDownloader) (start_date end_date : date)
  (instruments : list string) (max_workers : Z) (sched : list nat) (w : world)
  : option (world * list (thread * event) * result (list failure)) :=
  match date_range start_date end_date with
  | None => None
  | Some (inl e) => Some (w, [], raise e)
  | Some (inr dates) =>
      let tasks := make_tasks dates instruments in
      if max_workers <=? 0
      then Some (w, [], raise (mkexc "ValueError" "max_workers must be greater than 0"))
      else
        match run_pool self (Z.to_nat max_workers) sched (submit_all tasks w) with
        | None => None
        | Some st =>
            match collect (finished st) with
            | inl e => Some (pworld st, ptrace st, raise e)
            | inr errors => Some (pworld st, ptrace st ++ report_log errors, ret errors)
            end
        end
  end.

End Pool.

(* ===================================================================== *)
(** * Startup: the constructor and [main]                                 *)
(* ===================================================================== *)

Module Startup.
Import Calendar Frame Effects Downloader Pool.

(** The [maticalgos] client as the program uses it, over the states
    [session] of a client object: [historical(email)] builds one,
    [ma.login(password)] changes it, and [ma.check_login] is read for its
    truth value.  Each may raise. *)
Record historical (session : Type) : Type := mkhistorical {
  connect : string -> result session;
  login : session -> string -> result session;
  check_login : session -> result bool
}.

Arguments connect {session} _ _.
Arguments login {session} _ _ _.
Arguments check_login {session} _ _.

(** [initialize_connection(self, email, password)]: the client once it
    is logged in; whatever is raised on the way, [ConnectionError] included,
    is logged and raised again. *)
Definition initialize_connection {session : Type} (lib : historical session)
  (email password : string) : prog session :=
  try_except
    (ma <- lift (connect lib email) ;;
     ma <- lift (login lib ma password) ;;
     ok <- lift (check_login lib ma) ;;
     if ok : bool
     then call (Log INFO "Login Successful") ;; Ret ma
     else Raise (mkexc "ConnectionError" "Login failed"))%prog
    (fun e => call (Log ERROR ("Error in MA login: " +:+ exc_msg e)) ;; Raise e)%prog.

(** [MarketDataDownloader(email, password)], in the working directory
    [cwd].  The logger that [setup_logging] configures is the [Log]
    command; the client kept in [self.ma] is returned with the object, and
    its [get_data] is the remote source of the world. *)
Definition init {session : Type} (lib : historical session) (cwd : path)
  (email password : string) : prog (MarketDataDownloader * session) :=
  (ma <- initialize_connection lib email password ;;
   Ret (mkself (cwd /: "market_data"), ma))%prog.

(** The line [main] logs when an exception reaches it. *)
Definition critical_line (e : exc) : thread * event :=
  (Main, EvLog ERROR ("Critical error: " +:+ exc_msg e)).

(** The line [main] logs when the batch has returned. *)
Definition closing_line (errors : list failure) : thread * event :=
  match errors with
  | [] => (Main, EvLog INFO "Data download completed successfully")
  | _ => (Main, EvLog WARNING ("Download completed with " +:+
                               str (Z.of_nat (length errors)) +:+ " errors"))
  end.

(** The body of [main] for given settings: the downloader is built, the
    batch runs with the default of four workers, and the outcome is
    logged; an exception is logged and raised again. *)
Definition main_with {session : Type} (lib : historical session) (cwd : path)
  (email password : string) (start_date end_date : date) (instruments : list string)
  (sched : list nat) (w : world)
  : option (world * list (thread * event) * result unit) :=
  let '(w1, tr1, r1) := run (init lib cwd email password) w in
  let tr1 := map (pair Main) tr1 in
  match r1 with
  | inl e => Some (w1, tr1 ++ [critical_line e], raise e)
  | inr (downloader, _) =>
      match download_data downloader start_date end_date instruments 4 sched w1 with
      | None => None
      | Some (w2, tr2, inl e) => Some (w2, tr1 ++ tr2 ++ [critical_line e], raise e)
      | Some (w2, tr2, inr errors) => Some (w2, tr1 ++ tr2 ++ [closing_line errors], ret tt)
      end
  end.

(** [main()] with the settings written in it. *)
Definition main {session : Type} (lib : historical session) (cwd : path)
  (sched : list nat) (w : world) : option (world * list (thread * event) * result unit) :=
  main_with lib cwd "abc@gmail.com" "856544" (mkdate 2020 1 1) (mkdate 2024 11 1)
    ["NIFTY"; "BANKNIFTY"] sched w.

End Startup.


Import Calendar Frame Effects Downloader Pool Startup.

(* ===================================================================== *)
(** * Vocabulary of the specification and of the proofs                   *)
(* ===================================================================== *)

(** ** Classification *)

(** [c == x] is true, and [c != x] is true: what a mask selects by. *)
Definition cell_eq_str (c : cell) (x : string) : bool :=
  match c with
  | Str v => String.eqb v x
  | _ => false
  end.

Definition cell_ne_str (c : cell) (x : string) : bool :=
  match c with
  | Str v => negb (String.eqb v x)
  | NA => false
  | _ => true
  end.

(** The three legs a row can be sorted into. *)
Inductive leg : Type := Fut | Spot | Opt.

(** The [symbol] cell of a row of the nine-column frame. *)
Definition symbol_of (row : list cell) : cell := nth 2 row Null.

(** The partition rule in the specification's words: futures when the
    symbol is the instrument followed by [-I], spot when it is the
    instrument, options otherwise; and no leg at all for a row whose
    symbol is [<NA>], which the specification does not speak of. *)
Definition leg_of (instrument : string) (row : list cell) : option leg :=
  match symbol_of row with
  | Str s =>
      Some (if String.eqb s (instrument +:+ "-I") then Fut
            else if String.eqb s instrument then Spot
            else Opt)
  | NA => None
  | _ => Some Opt
  end.

(** Equality of legs as a boolean. *)
Definition leg_eqb (a b : leg) : bool :=
  match a, b with
  | Fut, Fut | Spot, Spot | Opt, Opt => true
  | _, _ => false
  end.

(** The row has the leg [l]. *)
Definition in_leg (instrument : string) (l : leg) (row : list cell) : bool :=
  match leg_of instrument row with
  | Some l' => leg_eqb l' l
  | None => false
  end.

(** The symbol of the row is [<NA>]. *)
Definition no_symbol (row : list cell) : bool :=
  match symbol_of row with NA => true | _ => false end.

(** A row restricted to some labels of a frame with columns [cols]. *)
Definition restrict (cols labels : list string) (row : list cell) : list cell :=
  map (take_cell cols row) labels.

(** ** Directories, file names and writes *)

(** [rootDir / (instrument.lowercase + "_" + leg) / year / month] *)
Definition leg_dir (root : path) (instrument leg : string) (d : date) : path :=
  root /: (lower instrument +:+ "_" +:+ leg) /: str (year d) /: str (month d).

(** The three directories of a date and an instrument. *)
Definition plan (self : MarketDataDownloader) (d : date) (instrument : string) : directories :=
  mkdirs (leg_dir (base_path self) instrument "fut" d)
         (leg_dir (base_path self) instrument "spot" d)
         (leg_dir (base_path self) instrument "options" d).

(** Their creation, in the order of the dictionary. *)
Definition plan_events (ds : directories) : list event :=
  [EvMkdir (dir_fut ds); EvMkdir (dir_spot ds); EvMkdir (dir_options ds)].

(** No file stands on the way to one of the three directories. *)
Definition plan_clear (w : world) (ds : directories) : bool :=
  negb (existsb (is_file w) (prefixes (dir_fut ds))) &&
  negb (existsb (is_file w) (prefixes (dir_spot ds))) &&
  negb (existsb (is_file w) (prefixes (dir_options ds))).

(** The world once the three directories of a plan exist. *)
Definition with_dirs (w : world) (ds : directories) : world :=
  mkworld (remote w)
    (dirs w ∪ list_to_set (prefixes (dir_fut ds)) ∪ list_to_set (prefixes (dir_spot ds))
       ∪ list_to_set (prefixes (dir_options ds)))
    (files w).



(** The writes of [save_data] for a date string: one per non-empty
    group, in the order futures, spot, options, each into its leg's
    directory. *)
Definition writes_of (date_str : string) (data : data_dict) (ds : directories)
  (instrument : string) : list (path * DataFrame) :=
  (if empty (futures data) then []
   else [(dir_fut ds /: (lower instrument +:+ "_fut_" +:+ date_str +:+ ".csv"), futures data)]) ++
  (if empty (spot data) then []
   else [(dir_spot ds /: (lower instrument +:+ "_spot_" +:+ date_str +:+ ".csv"), spot data)]) ++
  (if empty (options data) then []
   else [(dir_options ds /: (lower instrument +:+ "_options_" +:+ date_str +:+ ".csv"),
          options data)]).

(** Writes attempted one after the other until one raises. *)
Fixpoint run_writes (ws : list (path * DataFrame)) (w : world)
  : world * list event * result unit :=
  match ws with
  | [] => (w, [], ret tt)
  | (p, df) :: rest =>
      match to_csv p df w with
      | (w1, inl e) => (w1, [EvWrite p df], raise e)
      | (w1, inr _) =>
          let '(w2, tr, r) := run_writes rest w1 in (w2, EvWrite p df :: tr, r)
      end
  end.

(** The event of a write. *)
Definition write_event (x : path * DataFrame) : event := EvWrite (fst x) (snd x).

(** The three lines a task writes to the log. *)
Definition start_line (d : date) (i : string) : event :=
  EvLog INFO ("Processing " +:+ i +:+ " for date: " +:+ strftime "%d/%m/%Y" d).

Definition skip_line (d : date) : event :=
  EvLog INFO ("Skipping weekend: " +:+ strftime "%d/%m/%Y" d).

Definition error_line (d : date) (i : string) (e : exc) : event :=
  EvLog ERROR ("Error processing " +:+ i +:+ " for " +:+ strftime "%d/%m/%Y" d +:+ ": " +:+ exc_msg e).


(** ** Dates *)

(** The days from [a] up to, not including, [b], by ordinal. *)
Definition days_between (a b : date) : list date :=
  map fromordinal (seqZ (toordinal a) (toordinal b - toordinal a)).

(** ** Contracts of programs and the invariant of the pool *)

(** The answers a command can get: logging never raises, and the data
    source answers as the world's remote does. *)
Definition resp_ok (rem : string -> date -> result DataFrame) {R : Type} (c : cmd R)
  : result R -> Prop :=
  match c in cmd R return result R -> Prop with
  | Log _ _ => fun r => r = ret tt
  | GetData code d => fun r => r = rem code d
  | _ => fun _ => True
  end.

(** The events of the pool's trace that worker [k] issued, in order. *)
Definition own (k : nat) (tr : list (thread * event)) : list event :=
  flat_map (fun x => match fst x with
                     | Worker j => if Nat.eqb j k then [snd x] else []
                     | Main => []
                     end) tr.

(** [conforms rem Out n p h]: [p] is what remains of a run that has
    issued the events [h]; whatever the answers to its commands, it issues
    at most [n] more, never lets an exception escape, and returns a value
    [r] with [Out h' r], where [h'] is everything it has issued by then. *)
Fixpoint conforms (rem : string -> date -> result DataFrame)
  (Out : list event -> option failure -> Prop)
  (n : nat) (p : prog (option failure)) (h : list event) {struct p} : Prop :=
  match p with
  | Ret r => Out h r
  | Raise _ => False
  | Do c k =>
      match n with
      | O => False
      | S n' => forall r, resp_ok rem c r -> conforms rem Out n' (k r) (h ++ [event_of c])
      end
  end.

(** The running tasks with the number of steps they may still take:
    each runs what remains of the task submitted under its number, after
    the events its worker has issued, and keeps to that task's contract. *)
Inductive actives_inv (tasks : list (date * string))
  (rem : string -> date -> result DataFrame)
  (Out : date * string -> list event -> option failure -> Prop)
  (tr : list (thread * event))
  : list (nat * prog (option failure)) -> nat -> Prop :=
| actives_nil : actives_inv tasks rem Out tr [] 0
| actives_cons k p n l m t :
    tasks !! k = Some t ->
    conforms rem (Out t) n p (own k tr) ->
    actives_inv tasks rem Out tr l m ->
    actives_inv tasks rem Out tr ((k, p) :: l) (S n + m).

(** A queued task is the one submitted under its number, and nothing
    has been issued for it yet. *)
Definition queued_ok (tasks : list (date * string)) (tr : list (thread * event))
  (x : nat * (date * string)) : Prop :=
  tasks !! fst x = Some (snd x) /\ own (fst x) tr = [].

(** A completed future holds a value, one that its task's contract
    allows after the events its worker issued. *)
Definition finished_ok (tasks : list (date * string))
  (Out : date * string -> list event -> option failure -> Prop)
  (tr : list (thread * event)) (x : nat * result (option failure)) : Prop :=
  exists t r, tasks !! fst x = Some t /\ snd x = ret r /\ Out t (own (fst x) tr) r.

(** Every event of the pool was issued by the worker of a submitted task. *)
Definition traced_ok (tasks : list (date * string)) (x : thread * event) : Prop :=
  exists k, fst x = Worker k /\ (k < length tasks)%nat.

(** What holds of the pool at every step; [budget] bounds the steps left. *)
Record pool_inv (tasks : list (date * string)) (rem : string -> date -> result DataFrame)
  (Out : date * string -> list event -> option failure -> Prop)
  (N : nat) (st : pool) (budget : nat) : Prop := mk_pool_inv {
  inv_remote : remote (pworld st) = rem;
  inv_queue : Forall (queued_ok tasks (ptrace st)) (queue st);
  inv_active :
    exists m, actives_inv tasks rem Out (ptrace st) (active st) m /\
              budget = ((N + 2) * length (queue st) + m)%nat;
  inv_finished : Forall (finished_ok tasks Out (ptrace st)) (finished st);
  inv_trace : Forall (traced_ok tasks) (ptrace st);
  inv_ids :
    map fst (queue st) ++ map fst (active st) ++ map fst (finished st)
    ≡ₚ seq 0 (length tasks)
}.

(** ** The contract of a task *)

(** The runs of the task for date [d] and instrument [i], with a remote
    that answers as [rem]: the events it has issued when it is done, and
    what it returns.  On a weekend day one line; on a working day the start
    line, the three directories, the fetch and the writes, in that order,
    cut short by the first step that raises, which is followed by the
    error line and returned as the failure. *)
Inductive task_outcome (self : MarketDataDownloader) (rem : string -> date -> result DataFrame)
  (d : date) (i : string) : list event -> option failure -> Prop :=
| out_weekend :
    is_weekend d = true ->
    task_outcome self rem d i [skip_line d] None
| out_mkdir_raised (n : nat) (e : exc) :
    is_weekend d = false -> (1 <= n <= 3)%nat ->
    task_outcome self rem d i
      (start_line d i :: firstn n (plan_events (plan self d i)) ++ [error_line d i e])
      (Some (d, i, exc_msg e))
| out_fetch_raised (e : exc) :
    is_weekend d = false -> rem (lower i) d = raise e ->
    task_outcome self rem d i
      (start_line d i :: plan_events (plan self d i) ++
       [EvFetch (lower i) d; error_line d i e])
      (Some (d, i, exc_msg e))
| out_classify_raised (raw : DataFrame) (e : exc) :
    is_weekend d = false -> rem (lower i) d = ret raw -> process_data raw i = raise e ->
    task_outcome self rem d i
      (start_line d i :: plan_events (plan self d i) ++
       [EvFetch (lower i) d; error_line d i e])
      (Some (d, i, exc_msg e))
| out_write_raised (raw : DataFrame) (data : data_dict) (n : nat) (e : exc) :
    is_weekend d = false -> rem (lower i) d = ret raw -> process_data raw i = ret data ->
    (1 <= n <= length (writes_of (strftime "%d_%m_%Y" d) data (plan self d i) i))%nat ->
    task_outcome self rem d i
      (start_line d i :: plan_events (plan self d i) ++
       EvFetch (lower i) d ::
       firstn n (map write_event (writes_of (strftime "%d_%m_%Y" d) data (plan self d i) i)) ++
       [error_line d i e])
      (Some (d, i, exc_msg e))
| out_done (raw : DataFrame) (data : data_dict) :
    is_weekend d = false -> rem (lower i) d = ret raw -> process_data raw i = ret data ->
    task_outcome self rem d i
      (start_line d i :: plan_events (plan self d i) ++
       EvFetch (lower i) d ::
       map write_event (writes_of (strftime "%d_%m_%Y" d) data (plan self d i) i))
      None.

(** The failures among the completed futures, in their order. *)
Definition failures_of (done : list (nat * result (option failure))) : list failure :=
  flat_map (fun x => match snd x with inr (Some f) => [f] | _ => [] end) done.

(** The result of each completed future, exceptions apart. *)
Definition results_of (done : list (nat * result (option failure)))
  : list (nat * option failure) :=
  map (fun x => (fst x, match snd x with inr r => r | inl _ => None end)) done.

(** ** The scenarios of the specification *)

(** One row of the nine-column frame with the given symbol. *)
Definition ex_row (sym : string) : list cell :=
  [Str "2024-01-01"; Str "09:15:00"; Str sym; Num 1; Num 2; Num 3; Num 4; Num 5; Num 6].

(** A day of raw rows: one spot, one futures and one options row. *)
Definition ex_raw : DataFrame :=
  mkframe base_columns [ex_row "NIFTY"; ex_row "NIFTY-I"; ex_row "NIFTY24JANCE"].

(** The same day with a fourth row whose symbol is [<NA>]. *)
Definition ex_raw_na : DataFrame :=
  mkframe base_columns
    [ex_row "NIFTY"; ex_row "NIFTY-I"; ex_row "NIFTY24JANCE";
     [Str "2024-01-01"; Str "09:15:00"; NA; Num 1; Num 2; Num 3; Num 4; Num 5; Num 6]].

(** Its classification for the instrument NIFTY. *)
Definition ex_data : data_dict :=
  mkdata (mkframe base_columns [ex_row "NIFTY-I"])
         (mkframe spot_columns [[Str "2024-01-01"; Str "09:15:00"; Str "NIFTY"; Num 1; Num 2; Num 3; Num 4]])
         (mkframe base_columns [ex_row "NIFTY24JANCE"]).

(** A downloader, a world whose remote answers with that day, and one
    whose remote raises; both start with an empty file system. *)
Definition ex_self : MarketDataDownloader := mkself ["market_data"].

Definition ex_world : world := mkworld (fun _ _ => ret ex_raw) ∅ ∅.

Definition ex_world_down : world :=
  mkworld (fun _ _ => raise (mkexc "FetchError" "no data")) ∅ ∅.

(** The first days of January 2024; the 1st is a Monday. *)
Definition monday : date := mkdate 2024 1 1.

Definition tuesday : date := mkdate 2024 1 2.

Definition saturday : date := mkdate 2024 1 6.

Definition sunday : date := mkdate 2024 1 7.

Definition next_monday : date := mkdate 2024 1 8.


(** ** Start-up, the paths of a task and the pool at every moment *)

(** A client whose state tells whether it is logged in, and whose login
    goes through. *)
Definition ex_lib : historical bool :=
  mkhistorical bool (fun _ => ret false) (fun _ _ => ret true) (fun s => ret s).

(** A client whose login returns without logging in. *)
Definition ex_lib_refused : historical bool :=
  mkhistorical bool (fun _ => ret false) (fun s _ => ret s) (fun s => ret s).


(** The three legs by the names the paths carry. *)
Definition leg_names : list string := ["fut"; "spot"; "options"].

(** The nine columns and no row, and a world whose remote answers so. *)
Definition ex_no_rows : DataFrame := mkframe base_columns [].

Definition ex_world_no_rows : world := mkworld (fun _ _ => ret ex_no_rows) ∅ ∅.



(** ** Tasks that do not disturb each other *)










(* ===================================================================== *)
(** * Calendar facts                                                      *)
(* ===================================================================== *)

Lemma dby_decomp a b c e :
  0 <= a -> 0 <= b <= 3 -> 0 <= c <= 24 -> 0 <= e <= 3 ->
  days_before_year (400 * a + 100 * b + 4 * c + e + 1) =
  146097 * a + 36524 * b + 1461 * c + 365 * e.
Proof.
  intros. unfold days_before_year. cbv zeta.
  replace (400 * a + 100 * b + 4 * c + e + 1 - 1) with (400 * a + 100 * b + 4 * c + e) by lia.
  Z.div_mod_to_equations. lia.
Qed.

Lemma is_leap_decomp a b c e :
  0 <= a -> 0 <= b <= 3 -> 0 <= c <= 24 -> 0 <= e <= 3 ->
  is_leap (400 * a + 100 * b + 4 * c + e + 1) =
  (e =? 3) && (negb (c =? 24) || (b =? 3)).
Proof.
  intros. unfold is_leap.
  repeat match goal with |- context [?x =? ?y] => destruct (Z.eqb_spec x y) end;
    simpl; try reflexivity; exfalso; Z.div_mod_to_equations; lia.
Qed.

Lemma ord2ymd_spec n :
  1 <= n <= MAXORDINAL -> valid (ord2ymd n) /\ toordinal (ord2ymd n) = n.
Proof.
  intros Hn. unfold MAXORDINAL in Hn. unfold ord2ymd, DI400Y, DI100Y, DI4Y. cbv zeta.
  set (n0 := n - 1).
  set (a := n0 / 146097). set (r1 := n0 mod 146097).
  set (b := r1 / 36524). set (r2 := r1 mod 36524).
  set (c := r2 / 1461). set (r3 := r2 mod 1461).
  set (e := r3 / 365). set (r4 := r3 mod 365).
  assert (Hdec : n0 = 146097 * a + 36524 * b + 1461 * c + 365 * e + r4 /\
                 0 <= a <= 24 /\ 0 <= b <= 4 /\ 0 <= c <= 24 /\ 0 <= e <= 4 /\
                 0 <= r4 < 365 /\
                 (b = 4 -> c = 0 /\ e = 0 /\ r4 = 0) /\ (e = 4 -> r4 = 0 /\ c <= 23 /\ b <= 3) /\
                 400 * a + 100 * b + 4 * c + e <= 9998).
  { subst a r1 b r2 c r3 e r4 n0. Z.div_mod_to_equations. lia. }
  destruct Hdec as (Hn0 & Ha & Hb & Hc & He & Hr4 & Hb4 & He4 & Hy).
  replace (a * 400 + 1 + b * 100 + c * 4 + e) with (400 * a + 100 * b + 4 * c + e + 1) by lia.
  clearbody a b c e r4. clear r1 r2 r3.
  assert (Hn' : n = n0 + 1) by (subst n0; lia). clearbody n0. subst n n0.
  destruct (Z.eqb_spec e 4) as [E4|E4]; [|destruct (Z.eqb_spec b 4) as [B4|B4]]; simpl orb; cbv iota.
  - (* last day of a leap year ending a 4-year cycle *)
    destruct He4 as (-> & Hc' & Hb'); trivial. subst e.
    unfold valid, toordinal, ymd2ord, days_before_month, days_in_month. cbn [year month day].
    replace (400 * a + 100 * b + 4 * c + 4 + 1 - 1) with (400 * a + 100 * b + 4 * c + 3 + 1) by lia.
    rewrite dby_decomp, is_leap_decomp by lia.
    replace (c =? 24) with false by (symmetry; apply Z.eqb_neq; lia).
    cbn. unfold MINYEAR, MAXYEAR. lia.
  - (* last day of a 400-year cycle *)
    destruct Hb4 as (-> & -> & ->); trivial. subst b.
    unfold valid, toordinal, ymd2ord, days_before_month, days_in_month. cbn [year month day].
    replace (400 * a + 100 * 4 + 4 * 0 + 0 + 1 - 1) with (400 * a + 100 * 3 + 4 * 24 + 3 + 1) by lia.
    rewrite dby_decomp, is_leap_decomp by lia.
    cbn. unfold MINYEAR, MAXYEAR. lia.
  - rewrite Z.shiftr_div_pow2 by lia. change (2 ^ 5) with 32.
    set (m0 := (r4 + 50) / 32).
    assert (Hm0 : (m0 = 1 \/ m0 = 2 \/ m0 = 3 \/ m0 = 4 \/ m0 = 5 \/ m0 = 6) \/
                  (m0 = 7 \/ m0 = 8 \/ m0 = 9 \/ m0 = 10 \/ m0 = 11 \/ m0 = 12)).
    { subst m0. Z.div_mod_to_equations. lia. }
    assert (Hm0r : 32 * m0 <= r4 + 50 < 32 * m0 + 32).
    { subst m0. Z.div_mod_to_equations. lia. }
    clearbody m0.
    set (leap := (e =? 3) && (negb (c =? 24) || (b =? 3))).
    assert (Hleap : is_leap (400 * a + 100 * b + 4 * c + e + 1) = leap)
      by (apply is_leap_decomp; lia).
    assert (Hdby := dby_decomp a b c e ltac:(lia) ltac:(lia) ltac:(lia) ltac:(lia)).
    clearbody leap.
    unfold valid, toordinal, ymd2ord, days_before_month, days_in_month.
    destruct Hm0 as [Hm0|Hm0]; repeat destruct Hm0 as [Hm0|Hm0]; subst m0;
      destruct leap;
      repeat match goal with
             | |- context [Z.pos ?p - 1] =>
                 let v := eval vm_compute in (Z.pos p - 1) in
                 change (Z.pos p - 1) with v
             end;
      cbn -[Z.add Z.sub Z.mul days_before_year is_leap Z.ltb];
      match goal with |- context [?x <? ?y] => destruct (Z.ltb_spec x y) end;
      cbn [year month day]; rewrite ?Hleap, ?Hdby;
      cbn -[Z.add Z.sub Z.mul days_before_year is_leap] in *;
      unfold MINYEAR, MAXYEAR; lia.
Qed.

Lemma is_leap_cases y :
  (is_leap y = true /\ y mod 4 = 0 /\ (y mod 100 <> 0 \/ y mod 400 = 0)) \/
  (is_leap y = false /\ (y mod 4 <> 0 \/ (y mod 100 = 0 /\ y mod 400 <> 0))).
Proof.
  unfold is_leap.
  destruct (Z.eqb_spec (y mod 4) 0), (Z.eqb_spec (y mod 100) 0),
    (Z.eqb_spec (y mod 400) 0); cbn; intuition auto.
Qed.

Lemma days_before_year_next y1 y2 :
  y1 < y2 ->
  days_before_year y1 + 365 + (if is_leap y1 then 1 else 0) <= days_before_year y2.
Proof.
  intros Hlt. unfold days_before_year. cbv zeta.
  destruct (is_leap_cases y1) as [(-> & H)|(-> & H)];
    Z.div_mod_to_equations; lia.
Qed.

Lemma month_cases m :
  1 <= m <= 12 ->
  (m = 1 \/ m = 2 \/ m = 3 \/ m = 4 \/ m = 5 \/ m = 6) \/
  (m = 7 \/ m = 8 \/ m = 9 \/ m = 10 \/ m = 11 \/ m = 12).
Proof. lia. Qed.

Ltac each_month H :=
  apply month_cases in H; destruct H as [H|H]; repeat destruct H as [H|H]; subst.

Lemma days_before_month_next y m1 m2 :
  1 <= m1 <= 12 -> 1 <= m2 <= 12 -> m1 < m2 ->
  days_before_month y m1 + days_in_month y m1 <= days_before_month y m2.
Proof.
  intros H1 H2 Hlt. unfold days_before_month, days_in_month.
  each_month H1; each_month H2; try lia; destruct (is_leap y); cbn; lia.
Qed.

Lemma days_in_year_bound y m :
  1 <= m <= 12 ->
  0 <= days_before_month y m /\
  days_before_month y m + days_in_month y m <= 365 + (if is_leap y then 1 else 0).
Proof.
  intros H. unfold days_before_month, days_in_month.
  each_month H; destruct (is_leap y); cbn; lia.
Qed.

Lemma toordinal_mono a b :
  valid a -> valid b -> date_lt a b -> toordinal a < toordinal b.
Proof.
  intros (Hya & Hma & Hda) (Hyb & Hmb & Hdb). unfold date_lt, date_ltb, toordinal, ymd2ord.
  destruct a as [y1 m1 d1], b as [y2 m2 d2]. cbn [year month day] in *.
  intros H.
  destruct (Z.ltb_spec y1 y2) as [Hy|Hy].
  - pose proof (days_before_year_next y1 y2 Hy).
    pose proof (days_in_year_bound y1 m1 Hma). pose proof (days_in_year_bound y2 m2 Hmb). lia.
  - destruct (Z.eqb_spec y1 y2) as [->|]; [|discriminate]. cbn in H.
    destruct (Z.ltb_spec m1 m2) as [Hm|Hm].
    + pose proof (days_before_month_next y2 m1 m2 Hma Hmb Hm). lia.
    + destruct (Z.eqb_spec m1 m2) as [->|]; [|discriminate]. cbn in H.
      apply Z.ltb_lt in H. lia.
Qed.

Lemma date_lt_trichotomy a b : date_lt a b \/ a = b \/ date_lt b a.
Proof.
  destruct a as [y1 m1 d1], b as [y2 m2 d2]. unfold date_lt, date_ltb. cbn [year month day].
  destruct (Z.lt_trichotomy y1 y2) as [H|[->|H]].
  - left. apply Z.ltb_lt in H. now rewrite H.
  - rewrite Z.ltb_irrefl, Z.eqb_refl. cbn.
    destruct (Z.lt_trichotomy m1 m2) as [H|[->|H]].
    + left. apply Z.ltb_lt in H. now rewrite H.
    + rewrite Z.ltb_irrefl, Z.eqb_refl. cbn.
      destruct (Z.lt_trichotomy d1 d2) as [H|[->|H]].
      * left. now apply Z.ltb_lt.
      * right. now left.
      * right. right. now apply Z.ltb_lt.
    + right. right. apply Z.ltb_lt in H. now rewrite H.
  - right. right. apply Z.ltb_lt in H. now rewrite H.
Qed.

Lemma toordinal_lt_iff a b :
  valid a -> valid b -> (date_lt a b <-> toordinal a < toordinal b).
Proof.
  intros Ha Hb. split; [now apply toordinal_mono|].
  intros Hlt. destruct (date_lt_trichotomy a b) as [H|[->|H]]; trivial.
  - lia.
  - apply toordinal_mono in H; trivial. lia.
Qed.

Lemma toordinal_inj a b : valid a -> valid b -> toordinal a = toordinal b -> a = b.
Proof.
  intros Ha Hb Heq. destruct (date_lt_trichotomy a b) as [H|[->|H]]; trivial;
    apply toordinal_mono in H; trivial; lia.
Qed.

Lemma toordinal_range d : valid d -> 1 <= toordinal d <= MAXORDINAL.
Proof.
  intros Hv. pose proof Hv as (Hy & Hm & Hd). unfold toordinal, ymd2ord.
  pose proof (days_in_year_bound (year d) (month d) Hm).
  unfold MINYEAR, MAXYEAR, MAXORDINAL in *.
  assert (0 <= days_before_year (year d)).
  { unfold days_before_year. cbv zeta. Z.div_mod_to_equations. lia. }
  split; [lia|].
  destruct (Z.eq_dec (year d) 9999) as [E|E].
  - rewrite E in *. change (is_leap 9999) with false in *.
    change (days_before_year 9999) with 3651694. lia.
  - pose proof (days_before_year_next (year d) 9999 ltac:(lia)).
    change (days_before_year 9999) with 3651694 in *. destruct (is_leap (year d)); lia.
Qed.

Lemma fromordinal_toordinal d : valid d -> fromordinal (toordinal d) = d.
Proof.
  intros Hv. pose proof (toordinal_range d Hv) as Hr.
  destruct (ord2ymd_spec _ Hr) as [Hv' Heq].
  now apply toordinal_inj.
Qed.

Lemma validb_valid (d : date) : validb d = true -> valid d.
Proof.
  unfold validb, valid. intros H. repeat (apply andb_prop in H as [H ?]).
  repeat match goal with H : (_ <=? _) = true |- _ => apply Z.leb_le in H end. lia.
Qed.


(* ===================================================================== *)
(** * Classification facts                                                *)
(* ===================================================================== *)

Lemma string_length_append (a b : string) :
  String.length (a +:+ b) = (String.length a + String.length b)%nat.
Proof.
  induction a as [|c a IH]; [reflexivity|].
  change (S (String.length (a +:+ b)) = S (String.length a + String.length b)). now f_equal.
Qed.

Lemma futures_symbol_ne (instrument : string) : (instrument +:+ "-I")%string <> instrument.
Proof.
  intros H. apply (f_equal String.length) in H.
  rewrite string_length_append in H. cbn in H. lia.
Qed.

Lemma select_eq (f : list cell -> cell) (rs : list (list cell)) (x : string) :
  select_rows (series_eq (map f rs) x) rs = List.filter (fun r => cell_eq_str (f r) x) rs.
Proof.
  unfold series_eq. rewrite map_map.
  induction rs as [|r rs IH]; [reflexivity|]. cbn [map List.filter].
  unfold cell_eq at 1. unfold cell_eq_str at 1.
  destruct (f r) as [v| | |]; [destruct (String.eqb v x)|..];
    cbn [select_rows]; now rewrite IH.
Qed.

Lemma select_ne_ne (f : list cell -> cell) (rs : list (list cell)) (x y : string) :
  select_rows (mask_and (series_ne (map f rs) x) (series_ne (map f rs) y)) rs =
  List.filter (fun r => cell_ne_str (f r) x && cell_ne_str (f r) y) rs.
Proof.
  unfold series_ne. rewrite map_map.
  induction rs as [|r rs IH]; [reflexivity|]. cbn [map mask_and List.filter].
  unfold cell_ne at 1 2. unfold cell_ne_str at 1 2.
  destruct (f r) as [v| | |];
    [destruct (String.eqb v x), (String.eqb v y)|..];
    cbn [entry_and negb andb select_rows]; now rewrite IH.
Qed.

Lemma length_series_eq (s : list cell) (x : string) : length (series_eq s x) = length s.
Proof. unfold series_eq. apply length_map. Qed.

Lemma length_mask_ne (s : list cell) (x y : string) :
  length (mask_and (series_ne s x) (series_ne s y)) = length s.
Proof. unfold series_ne. induction s as [|c s IH]; cbn; [reflexivity | now rewrite IH]. Qed.

Lemma filter_ext_leg (instrument : string) (l : leg) (f : list cell -> bool) (rs : list (list cell)) :
  (forall r, f r = in_leg instrument l r) ->
  List.filter f rs = List.filter (in_leg instrument l) rs.
Proof. intros H. apply List.filter_ext. exact H. Qed.

Lemma is_futures_leg (instrument : string) (r : list cell) :
  cell_eq_str (symbol_of r) (instrument +:+ "-I") = in_leg instrument Fut r.
Proof.
  unfold in_leg, leg_of, cell_eq_str. destruct (symbol_of r) as [s| | |]; try reflexivity.
  destruct (String.eqb s (instrument +:+ "-I")); [reflexivity|].
  now destruct (String.eqb s instrument).
Qed.

Lemma is_spot_leg (instrument : string) (r : list cell) :
  cell_eq_str (symbol_of r) instrument = in_leg instrument Spot r.
Proof.
  unfold in_leg, leg_of, cell_eq_str. destruct (symbol_of r) as [s| | |]; try reflexivity.
  destruct (String.eqb_spec s (instrument +:+ "-I")) as [->|].
  - cbn. apply String.eqb_neq, futures_symbol_ne.
  - now destruct (String.eqb s instrument).
Qed.

Lemma is_options_leg (instrument : string) (r : list cell) :
  cell_ne_str (symbol_of r) instrument &&
  cell_ne_str (symbol_of r) (instrument +:+ "-I") = in_leg instrument Opt r.
Proof.
  unfold in_leg, leg_of, cell_ne_str. destruct (symbol_of r) as [s| | |]; try reflexivity.
  destruct (String.eqb_spec s (instrument +:+ "-I")) as [->|].
  - cbn. apply andb_false_r.
  - now destruct (String.eqb s instrument).
Qed.

(** What [process_data] computes on a frame that has the nine columns. *)
Lemma process_data_spec (df : DataFrame) (instrument : string) :
  missing base_columns (columns df) = [] ->
  let R := map (restrict (columns df) base_columns) (rows df) in
  process_data df instrument =
  ret (mkdata
         (mkframe base_columns (List.filter (in_leg instrument Fut) R))
         (mkframe spot_columns
            (map (restrict base_columns spot_columns) (List.filter (in_leg instrument Spot) R)))
         (mkframe base_columns (List.filter (in_leg instrument Opt) R))).
Proof.
  intros Hmiss R. unfold process_data, getitem_labels at 1. rewrite Hmiss.
  fold (restrict (columns df) base_columns). fold R.
  cbn [rbind]. unfold getitem_label. cbn [columns rows].
  change (get_loc "symbol" base_columns) with (Some 2%nat). cbn [rbind].
  change (fun row : list cell => nth 2 row Null) with symbol_of.
  unfold getitem_mask. cbn [rows columns].
  rewrite !length_series_eq, length_mask_ne, !length_map, Nat.eqb_refl.
  rewrite !select_eq, select_ne_ne.
  cbn [rbind]. unfold getitem_labels. cbn [columns rows].
  change (missing spot_columns base_columns) with (@nil string). cbn [rbind].
  fold (restrict base_columns spot_columns).
  rewrite (filter_ext_leg instrument Fut _ R (is_futures_leg instrument)).
  rewrite (filter_ext_leg instrument Spot _ R (is_spot_leg instrument)).
  rewrite (filter_ext_leg instrument Opt _ R (is_options_leg instrument)).
  reflexivity.
Qed.

(** When a column is absent [process_data] raises [KeyError]. *)
Lemma process_data_missing (df : DataFrame) (instrument : string) :
  missing base_columns (columns df) <> [] ->
  process_data df instrument = raise (KeyError (missing base_columns (columns df))).
Proof.
  intros H. unfold process_data, getitem_labels.
  destruct (missing base_columns (columns df)); [contradiction | reflexivity].
Qed.

(** Every row has one of the three legs or no symbol. *)
Lemma leg_cases (instrument : string) (r : list cell) :
  let x := (in_leg instrument Fut r, in_leg instrument Spot r, in_leg instrument Opt r,
            no_symbol r) in
  x = (true, false, false, false) \/ x = (false, true, false, false) \/
  x = (false, false, true, false) \/ x = (false, false, false, true).
Proof.
  unfold in_leg, no_symbol, leg_of.
  destruct (symbol_of r) as [s| | |];
    [destruct (String.eqb s (instrument +:+ "-I")); [|destruct (String.eqb s instrument)]|..];
    cbn [leg_eqb]; auto.
Qed.

Lemma filter_leg_length (instrument : string) (rs : list (list cell)) :
  (length (List.filter (in_leg instrument Fut) rs) +
   length (List.filter (in_leg instrument Spot) rs) +
   length (List.filter (in_leg instrument Opt) rs) +
   length (List.filter no_symbol rs))%nat = length rs.
Proof.
  induction rs as [|r rs IH]; [reflexivity|]. cbn [List.filter].
  destruct (leg_cases instrument r) as [H|[H|[H|H]]]; injection H as -> -> -> ->;
    cbn [length]; lia.
Qed.

Lemma filter_leg_perm (instrument : string) (rs : list (list cell)) :
  rs ≡ₚ List.filter (in_leg instrument Fut) rs ++ List.filter (in_leg instrument Spot) rs ++
        List.filter (in_leg instrument Opt) rs ++ List.filter no_symbol rs.
Proof.
  induction rs as [|r rs IH]; [reflexivity|]. cbn [List.filter].
  destruct (leg_cases instrument r) as [H|[H|[H|H]]]; injection H as -> -> -> ->; cbn [app].
  - now constructor.
  - rewrite <- Permutation_middle. now constructor.
  - rewrite app_assoc, <- Permutation_middle, <- app_assoc. now constructor.
  - rewrite !app_assoc, <- Permutation_middle, <- !app_assoc. now constructor.
Qed.

Lemma leg_of_fut (instrument : string) (r : list cell) :
  leg_of instrument r = Some Fut <-> symbol_of r = Str (instrument +:+ "-I").
Proof.
  unfold leg_of. destruct (symbol_of r) as [s| | |]; [|split; discriminate..].
  destruct (String.eqb_spec s (instrument +:+ "-I")) as [->|Hne].
  - tauto.
  - split; [destruct (String.eqb s instrument); discriminate | intros [= ->]; contradiction].
Qed.

Lemma leg_of_spot (instrument : string) (r : list cell) :
  leg_of instrument r = Some Spot <-> symbol_of r = Str instrument.
Proof.
  unfold leg_of. destruct (symbol_of r) as [s| | |]; [|split; discriminate..].
  destruct (String.eqb_spec s (instrument +:+ "-I")) as [->|Hne].
  - split; [discriminate|]. intros [= H]. now apply futures_symbol_ne in H.
  - destruct (String.eqb_spec s instrument) as [->|Hne'].
    + tauto.
    + split; [discriminate | intros [= ->]; contradiction].
Qed.

Lemma leg_of_none (instrument : string) (r : list cell) :
  leg_of instrument r = None <-> symbol_of r = NA.
Proof. unfold leg_of. destruct (symbol_of r); split; try discriminate; reflexivity. Qed.

Lemma leg_of_opt (instrument : string) (r : list cell) :
  leg_of instrument r = Some Opt <->
  symbol_of r <> NA /\ symbol_of r <> Str (instrument +:+ "-I") /\
  symbol_of r <> Str instrument.
Proof.
  pose proof (leg_of_fut instrument r) as Hf. pose proof (leg_of_spot instrument r) as Hs.
  pose proof (leg_of_none instrument r) as Hn.
  destruct (leg_of instrument r) as [[| |]|] eqn:E.
  - split; [discriminate|]. intros (_ & H & _). exfalso. apply H. now apply Hf.
  - split; [discriminate|]. intros (_ & _ & H). exfalso. apply H. now apply Hs.
  - split; [|reflexivity]. intros _. split; [|split]; intros H.
    + apply Hn in H. discriminate.
    + apply Hf in H. discriminate.
    + apply Hs in H. discriminate.
  - split; [discriminate|]. intros (H & _). exfalso. apply H. now apply Hn.
Qed.

Lemma in_leg_iff (instrument : string) (l : leg) (r : list cell) :
  in_leg instrument l r = true <-> leg_of instrument r = Some l.
Proof.
  unfold in_leg. destruct (leg_of instrument r) as [l'|]; [|split; discriminate].
  destruct l', l; cbn [leg_eqb]; split; congruence.
Qed.

Lemma in_leg_fut (instrument : string) (r : list cell) :
  in_leg instrument Fut r = true <-> symbol_of r = Str (instrument +:+ "-I").
Proof. rewrite in_leg_iff. apply leg_of_fut. Qed.

Lemma in_leg_spot (instrument : string) (r : list cell) :
  in_leg instrument Spot r = true <-> symbol_of r = Str instrument.
Proof. rewrite in_leg_iff. apply leg_of_spot. Qed.

Lemma in_leg_opt (instrument : string) (r : list cell) :
  in_leg instrument Opt r = true <->
  symbol_of r <> NA /\ symbol_of r <> Str (instrument +:+ "-I") /\
  symbol_of r <> Str instrument.
Proof. rewrite in_leg_iff. apply leg_of_opt. Qed.

Lemma no_symbol_iff (r : list cell) : no_symbol r = true <-> symbol_of r = NA.
Proof. unfold no_symbol. destruct (symbol_of r); split; try discriminate; reflexivity. Qed.

(** A row is in at most one leg. *)
Lemma in_leg_unique (instrument : string) (l l' : leg) (r : list cell) :
  in_leg instrument l r = true -> in_leg instrument l' r = true -> l = l'.
Proof. rewrite !in_leg_iff. congruence. Qed.


(* ===================================================================== *)
(** * Programs and the file system                                        *)
(* ===================================================================== *)

Lemma run_bind {A B : Type} (p : prog A) (f : A -> prog B) (w : world) :
  run (bind p f) w =
  let '(w1, tr1, r) := run p w in
  match r with
  | inl e => (w1, tr1, inl e)
  | inr a => let '(w2, tr2, r2) := run (f a) w1 in (w2, tr1 ++ tr2, r2)
  end.
Proof.
  revert w. induction p as [a|e|R c k IH]; intros w; cbn [bind run].
  - destruct (run (f a) w) as [[w2 tr2] r2]. reflexivity.
  - reflexivity.
  - destruct (exec c w) as [w1 r]. rewrite IH.
    destruct (run (k r) w1) as [[w2 tr] [e|a]]; [reflexivity|].
    destruct (run (f a) w2) as [[w3 tr3] r3]. reflexivity.
Qed.

Lemma run_try_except {A : Type} (p : prog A) (h : exc -> prog A) (w : world) :
  run (try_except p h) w =
  let '(w1, tr1, r) := run p w in
  match r with
  | inl e => let '(w2, tr2, r2) := run (h e) w1 in (w2, tr1 ++ tr2, r2)
  | inr a => (w1, tr1, inr a)
  end.
Proof.
  revert w. induction p as [a|e|R c k IH]; intros w; cbn [try_except run].
  - reflexivity.
  - destruct (run (h e) w) as [[w2 tr2] r2]. reflexivity.
  - destruct (exec c w) as [w1 r]. rewrite IH.
    destruct (run (k r) w1) as [[w2 tr] [e|a]]; [|reflexivity].
    destruct (run (h e) w2) as [[w3 tr3] r3]. reflexivity.
Qed.

Lemma run_call {R : Type} (c : cmd R) (w : world) :
  run (call c) w = (fst (exec c w), [event_of c], snd (exec c w)).
Proof.
  unfold call. cbn [run]. destruct (exec c w) as [w1 [e|v]]; reflexivity.
Qed.

Lemma mkdir_files (p : path) (w w' : world) (r : result unit) :
  mkdir p w = (w', r) -> files w' = files w /\ remote w' = remote w.
Proof.
  unfold mkdir. destruct (existsb (is_file w) (prefixes p)); intros [= <- <-]; auto.
Qed.

Lemma is_file_files (w w' : world) (p : path) :
  files w' = files w -> is_file w' p = is_file w p.
Proof. unfold is_file. now intros ->. Qed.

Lemma blocked_files (w w' : world) (p : path) :
  files w' = files w ->
  existsb (is_file w') (prefixes p) = existsb (is_file w) (prefixes p).
Proof.
  intros H. induction (prefixes p) as [|q l IH]; [reflexivity|].
  cbn [existsb]. now rewrite IH, (is_file_files w w' q H).
Qed.

Lemma prefixes_last (p : path) : p <> [] -> In p (prefixes p).
Proof.
  induction p as [|s p IH]; [congruence|]. intros _. destruct p as [|t p].
  - now left.
  - right. cbn [prefixes]. apply in_map. apply IH. congruence.
Qed.


(* ===================================================================== *)
(** * One task                                                            *)
(* ===================================================================== *)

Lemma create_directory_structure_plan (self : MarketDataDownloader) (d : date) (i : string) :
  create_directory_structure self d i =
  (call (Mkdir (dir_fut (plan self d i))) ;;
   call (Mkdir (dir_spot (plan self d i))) ;;
   call (Mkdir (dir_options (plan self d i))) ;;
   Ret (plan self d i))%prog.
Proof. reflexivity. Qed.

Lemma run_create_ok (self : MarketDataDownloader) (d : date) (i : string) (w : world) :
  plan_clear w (plan self d i) = true ->
  run (create_directory_structure self d i) w =
  (with_dirs w (plan self d i), plan_events (plan self d i), ret (plan self d i)).
Proof.
  unfold plan_clear. intros H. apply andb_prop in H as [H H3]. apply andb_prop in H as [H1 H2].
  apply negb_true_iff in H1, H2, H3.
  rewrite create_directory_structure_plan. generalize dependent (plan self d i). intros ds H1 H2 H3.
  cbn [bind call run exec].
  unfold mkdir at 1. rewrite H1. cbn [bind call run exec].
  unfold mkdir at 1. rewrite (blocked_files w) by reflexivity. rewrite H2. cbn [bind call run exec].
  unfold mkdir at 1. rewrite (blocked_files w) by reflexivity. rewrite H3.
  reflexivity.
Qed.

Lemma run_create_blocked (self : MarketDataDownloader) (d : date) (i : string) (w : world) :
  plan_clear w (plan self d i) = false ->
  exists w' tr e,
    run (create_directory_structure self d i) w = (w', tr, raise e) /\
    files w' = files w /\ remote w' = remote w /\ dirs w ⊆ dirs w' /\
    (exists n, tr = firstn n (plan_events (plan self d i))).
Proof.
  unfold plan_clear. rewrite create_directory_structure_plan.
  generalize dependent (plan self d i). intros ds H.
  cbn [bind call run exec].
  unfold mkdir at 1.
  destruct (existsb (is_file w) (prefixes (dir_fut ds))) eqn:H1.
  { eexists _, _, _. repeat split; [set_solver | now exists 1%nat]. }
  cbn [bind call run exec].
  unfold mkdir at 1. rewrite (blocked_files w) by reflexivity.
  destruct (existsb (is_file w) (prefixes (dir_spot ds))) eqn:H2.
  { eexists _, _, _. repeat split; [cbn; set_solver | now exists 2%nat]. }
  cbn [bind call run exec].
  unfold mkdir at 1. rewrite (blocked_files w) by reflexivity.
  destruct (existsb (is_file w) (prefixes (dir_options ds))) eqn:H3.
  { eexists _, _, _. repeat split; [cbn; set_solver | now exists 3%nat]. }
  discriminate.
Qed.

Lemma plan_dirs_exist (w : world) (self : MarketDataDownloader) (d : date) (i : string) :
  let ds := plan self d i in
  dir_fut ds ∈ dirs (with_dirs w ds) /\ dir_spot ds ∈ dirs (with_dirs w ds) /\
  dir_options ds ∈ dirs (with_dirs w ds).
Proof.
  cbn. repeat split.
  - do 2 apply elem_of_union_l. apply elem_of_union_r, elem_of_list_to_set, list_elem_of_In.
    apply prefixes_last. unfold leg_dir, joinpath. now destruct (base_path self).
  - apply elem_of_union_l. apply elem_of_union_r, elem_of_list_to_set, list_elem_of_In.
    apply prefixes_last. unfold leg_dir, joinpath. now destruct (base_path self).
  - apply elem_of_union_r, elem_of_list_to_set, list_elem_of_In.
    apply prefixes_last. unfold leg_dir, joinpath. now destruct (base_path self).
Qed.

Lemma plan_clear_with_dirs (w : world) (ds ds' : directories) :
  plan_clear (with_dirs w ds') ds = plan_clear w ds.
Proof. unfold plan_clear. now rewrite !(blocked_files w (with_dirs w ds')). Qed.

Lemma with_dirs_idem (w : world) (ds : directories) :
  with_dirs (with_dirs w ds) ds = with_dirs w ds.
Proof. unfold with_dirs. cbn [remote dirs files]. f_equal. set_solver. Qed.






Lemma run_save_data (data : data_dict) (ds : directories) (d : date) (i : string) (w : world) :
  run (save_data data ds d i) w = run_writes (writes_of (strftime "%d_%m_%Y" d) data ds i) w.
Proof.
  unfold save_data, writes_of. cbv zeta. generalize (strftime "%d_%m_%Y" d). intros date_str.
  destruct (empty (futures data)), (empty (spot data)), (empty (options data));
    cbn [negb app run_writes bind call run exec event_of];
    repeat match goal with
      | |- context [to_csv ?p ?df ?w] =>
          destruct (to_csv p df w) as [? [?|[]]]; cbn [bind call run exec event_of]
      end; reflexivity.
Qed.

Lemma to_csv_spec (p : path) (df : DataFrame) (w w1 : world) (r : result unit) :
  to_csv p df w = (w1, r) ->
  dirs w1 = dirs w /\ remote w1 = remote w /\
  match r with
  | inl _ => files w1 = files w
  | inr _ => files w1 = <[p := df]> (files w)
  end.
Proof.
  unfold to_csv. destruct (is_dir w p); [|destruct (is_dir w (removelast p))];
    intros H; injection H as <- <-; auto.
Qed.

Lemma run_writes_frame (ws : list (path * DataFrame)) (w w' : world) (tr : list event)
  (r : result unit) :
  run_writes ws w = (w', tr, r) ->
  dirs w' = dirs w /\ remote w' = remote w /\
  (forall p, ~ In p (map fst ws) -> files w' !! p = files w !! p).
Proof.
  revert w w' tr r. induction ws as [|[p df] ws IH]; intros w w' tr r; cbn [run_writes].
  - intros H. injection H as <- <- <-. auto.
  - destruct (to_csv p df w) as [w1 [e|[]]] eqn:Hw; apply to_csv_spec in Hw as (Hd & Hr & Hf).
    + intros H. injection H as <- <- <-. repeat split; trivial. intros q _. now rewrite Hf.
    + destruct (run_writes ws w1) as [[w2 tr2] r2] eqn:Hrest. intros H. injection H as <- <- <-.
      apply IH in Hrest as (Hd2 & Hr2 & Hf2). repeat split; try congruence.
      intros q Hq. cbn [map fst In] in Hq. rewrite Hf2 by tauto. rewrite Hf.
      apply lookup_insert_ne. tauto.
Qed.

Lemma run_writes_trace (ws : list (path * DataFrame)) (w w' : world) (tr : list event)
  (r : result unit) :
  run_writes ws w = (w', tr, r) ->
  (exists n, tr = firstn n (map write_event ws)) /\
  (r = ret tt -> tr = map write_event ws).
Proof.
  revert w w' tr r. induction ws as [|[p df] ws IH]; intros w w' tr r; cbn [run_writes].
  - intros H. injection H as <- <- <-. split; [now exists 0%nat | reflexivity].
  - destruct (to_csv p df w) as [w1 [e|[]]] eqn:Hw.
    + intros H. injection H as <- <- <-. split; [now exists 1%nat | discriminate].
    + destruct (run_writes ws w1) as [[w2 tr2] r2] eqn:Hrest. intros H. injection H as <- <- <-.
      apply IH in Hrest as ([n Hn] & Hall). split.
      * exists (S n). cbn [map firstn]. now rewrite Hn.
      * intros Hr. cbn [map]. now rewrite (Hall Hr).
Qed.

(** On a weekend day a task writes one line to the log and returns. *)
Lemma run_task_weekend (self : MarketDataDownloader) (d : date) (i : string) (w : world) :
  is_weekend d = true ->
  run (download_single_date_instrument self d i) w = (w, [skip_line d], ret None).
Proof.
  intros H. unfold download_single_date_instrument, task_body. rewrite H. reflexivity.
Qed.

(** The run of a task on a working day, step by step. *)
Lemma run_task_weekday (self : MarketDataDownloader) (d : date) (i : string) (w : world) :
  is_weekend d = false ->
  run (download_single_date_instrument self d i) w =
  let '(w1, tr1, r1) := run (create_directory_structure self d i) w in
  match r1 with
  | inl e => (w1, start_line d i :: tr1 ++ [error_line d i e], ret (Some (d, i, exc_msg e)))
  | inr ds =>
      match remote w1 (lower i) d with
      | inl e =>
          (w1, start_line d i :: tr1 ++ [EvFetch (lower i) d; error_line d i e],
           ret (Some (d, i, exc_msg e)))
      | inr raw =>
          match process_data raw i with
          | inl e =>
              (w1, start_line d i :: tr1 ++ [EvFetch (lower i) d; error_line d i e],
               ret (Some (d, i, exc_msg e)))
          | inr data =>
              let '(w2, tr2, r2) := run (save_data data ds d i) w1 in
              match r2 with
              | inl e =>
                  (w2, start_line d i :: tr1 ++ EvFetch (lower i) d :: tr2 ++ [error_line d i e],
                   ret (Some (d, i, exc_msg e)))
              | inr _ => (w2, start_line d i :: tr1 ++ EvFetch (lower i) d :: tr2, ret None)
              end
          end
      end
  end.
Proof.
  intros H. unfold download_single_date_instrument, task_body. rewrite H.
  rewrite run_try_except, run_bind, run_call. cbn [exec fst snd event_of].
  rewrite run_bind.
  destruct (run (create_directory_structure self d i) w) as [[w1 tr1] [e|ds]].
  { cbn [run task_handler bind call exec event_of app]. reflexivity. }
  rewrite run_bind, run_call. cbn [exec fst snd event_of].
  destruct (remote w1 (lower i) d) as [e|raw].
  { cbn [run task_handler bind call exec event_of app]. now rewrite <- app_assoc. }
  rewrite run_bind.
  destruct (process_data raw i) as [e|data]; cbn [lift run].
  { cbn [run task_handler bind call exec event_of app]. now rewrite <- app_assoc. }
  rewrite run_bind.
  destruct (run (save_data data ds d i) w1) as [[w2 tr2] [e|[]]].
  - cbn [run task_handler bind call exec event_of app]. now rewrite <- app_assoc.
  - cbn [run app]. now rewrite app_nil_r.
Qed.

Lemma run_create_inv (self : MarketDataDownloader) (d : date) (i : string) (w w1 : world)
  (tr : list event) (ds : directories) :
  run (create_directory_structure self d i) w = (w1, tr, ret ds) ->
  plan_clear w (plan self d i) = true /\
  w1 = with_dirs w (plan self d i) /\ tr = plan_events (plan self d i) /\ ds = plan self d i.
Proof.
  intros H. destruct (plan_clear w (plan self d i)) eqn:Hc.
  - rewrite (run_create_ok self d i w Hc) in H. injection H as <- <- <-. auto.
  - destruct (run_create_blocked self d i w Hc) as (w' & tr' & e & Hrun & _).
    rewrite Hrun in H. discriminate.
Qed.

(** A task on a working day whose directories can be created. *)
Lemma run_task_clear (self : MarketDataDownloader) (d : date) (i : string) (w : world) :
  is_weekend d = false -> plan_clear w (plan self d i) = true ->
  let ds := plan self d i in
  let w1 := with_dirs w ds in
  run (download_single_date_instrument self d i) w =
  match remote w (lower i) d with
  | inl e =>
      (w1, start_line d i :: plan_events ds ++ [EvFetch (lower i) d; error_line d i e],
       ret (Some (d, i, exc_msg e)))
  | inr raw =>
      match process_data raw i with
      | inl e =>
          (w1, start_line d i :: plan_events ds ++ [EvFetch (lower i) d; error_line d i e],
           ret (Some (d, i, exc_msg e)))
      | inr data =>
          let '(w2, tr2, r2) := run_writes (writes_of (strftime "%d_%m_%Y" d) data ds i) w1 in
          match r2 with
          | inl e =>
              (w2, start_line d i :: plan_events ds ++ EvFetch (lower i) d :: tr2 ++ [error_line d i e],
               ret (Some (d, i, exc_msg e)))
          | inr _ => (w2, start_line d i :: plan_events ds ++ EvFetch (lower i) d :: tr2, ret None)
          end
      end
  end.
Proof.
  intros W Hc ds w1. rewrite (run_task_weekday self d i w W), (run_create_ok self d i w Hc).
  fold ds w1. change (remote w1) with (remote w).
  destruct (remote w (lower i) d) as [e|raw]; [reflexivity|].
  destruct (process_data raw i) as [e|data]; [reflexivity|].
  now rewrite run_save_data.
Qed.

(** A task on a working day whose directories cannot be created. *)
Lemma run_task_blocked (self : MarketDataDownloader) (d : date) (i : string) (w : world) :
  is_weekend d = false -> plan_clear w (plan self d i) = false ->
  exists w' n e,
    run (download_single_date_instrument self d i) w =
    (w', start_line d i :: firstn n (plan_events (plan self d i)) ++ [error_line d i e],
     ret (Some (d, i, exc_msg e))) /\
    files w' = files w.
Proof.
  intros W Hc. rewrite (run_task_weekday self d i w W).
  destruct (run_create_blocked self d i w Hc) as (w' & tr & e & Hrun & Hf & _ & _ & n & ->).
  rewrite Hrun. now exists w', n, e.
Qed.

Lemma string_app_inv_head (a x y : string) : (a +:+ x)%string = (a +:+ y)%string -> x = y.
Proof.
  induction a as [|c a IH]; intros H; [exact H|].
  change (String c (a +:+ x) = String c (a +:+ y)) in H. injection H as H. now apply IH.
Qed.

Lemma joinpath_inj (p q : path) (x y : string) : p /: x = q /: y -> p = q /\ x = y.
Proof. unfold joinpath. intros H. now apply app_inj_tail in H. Qed.

Lemma writes_of_NoDup (s : string) (data : data_dict) (ds : directories) (i : string) :
  List.NoDup (map fst (writes_of s data ds i)).
Proof.
  unfold writes_of.
  destruct (empty (futures data)), (empty (spot data)), (empty (options data));
    cbn [app map fst]; repeat constructor; cbn [In];
    intros Hin; repeat destruct Hin as [Hin|Hin]; try contradiction;
    apply joinpath_inj in Hin as [_ Hin]; apply string_app_inv_head in Hin; discriminate.
Qed.


Lemma no_file_clear (w : world) (ps : list path) :
  (forall q, In q ps -> files w !! q = None) -> existsb (is_file w) ps = false.
Proof.
  intros H. induction ps as [|p ps IH]; [reflexivity|]. cbn [existsb].
  rewrite IH by (intros q Hq; apply H; now right).
  unfold is_file. rewrite (H p) by now left.
  rewrite bool_decide_eq_false_2; [reflexivity|]. now intros [x Hx].
Qed.







(* ===================================================================== *)
(** * The date range                                                      *)
(* ===================================================================== *)

Lemma fromordinal_valid (n : Z) : 1 <= n <= MAXORDINAL -> valid (fromordinal n).
Proof. intros H. now apply ord2ymd_spec. Qed.

Lemma toordinal_fromordinal (n : Z) : 1 <= n <= MAXORDINAL -> toordinal (fromordinal n) = n.
Proof. intros H. now apply ord2ymd_spec. Qed.

Lemma not_before_ordinal (a b : date) :
  valid a -> valid b -> date_ltb a b = false -> toordinal b - toordinal a <= 0.
Proof.
  intros Ha Hb Hlt.
  destruct (Z.le_gt_cases (toordinal b - toordinal a) 0) as [|Hgt]; trivial.
  assert (Hl : date_lt a b) by (apply toordinal_lt_iff; trivial; lia).
  unfold date_lt in Hl. congruence.
Qed.

Lemma date_loop_spec (fuel : nat) (cur end_date : date) :
  valid cur -> valid end_date ->
  toordinal end_date - toordinal cur <= Z.of_nat fuel ->
  date_loop fuel cur end_date = Some (ret (days_between cur end_date)).
Proof.
  revert cur. induction fuel as [|fuel IH]; intros cur Hc He Hf.
  - cbn [date_loop]. destruct (date_ltb cur end_date) eqn:Hlt.
    + apply (toordinal_mono cur end_date Hc He) in Hlt. lia.
    + unfold days_between. rewrite seqZ_nil by (now apply not_before_ordinal). reflexivity.
  - cbn [date_loop]. destruct (date_ltb cur end_date) eqn:Hlt.
    + apply (toordinal_mono cur end_date Hc He) in Hlt.
      pose proof (toordinal_range cur Hc) as Hrc. pose proof (toordinal_range end_date He) as Hre.
      unfold add_days.
      replace ((0 <? toordinal cur + 1) && (toordinal cur + 1 <=? MAXORDINAL)) with true
        by (symmetry; apply andb_true_intro; split; [apply Z.ltb_lt | apply Z.leb_le]; lia).
      assert (Hn : 1 <= toordinal cur + 1 <= MAXORDINAL) by lia.
      rewrite IH; [| now apply fromordinal_valid | trivial | rewrite toordinal_fromordinal by trivial; lia].
      unfold days_between. rewrite toordinal_fromordinal by trivial.
      rewrite (seqZ_cons (toordinal cur)) by lia. cbn [map].
      rewrite fromordinal_toordinal by trivial.
      replace (Z.succ (toordinal cur)) with (toordinal cur + 1) by lia.
      replace (Z.pred (toordinal end_date - toordinal cur))
        with (toordinal end_date - (toordinal cur + 1)) by lia.
      reflexivity.
    + unfold days_between. rewrite seqZ_nil by (now apply not_before_ordinal). reflexivity.
Qed.

Lemma date_range_spec (a b : date) :
  valid a -> valid b -> date_range a b = Some (ret (days_between a b)).
Proof. intros Ha Hb. apply date_loop_spec; trivial. lia. Qed.

Lemma date_loop_empty (fuel : nat) (a b : date) :
  date_ltb a b = false -> date_loop fuel a b = Some (ret []).
Proof. intros H. destruct fuel; cbn [date_loop]; now rewrite H. Qed.

Lemma in_days_between (a b d : date) :
  valid a -> valid b ->
  (In d (days_between a b) <-> valid d /\ date_le a d /\ date_lt d b).
Proof.
  intros Ha Hb. pose proof (toordinal_range a Ha). pose proof (toordinal_range b Hb).
  unfold days_between. rewrite in_map_iff. split.
  - intros (n & <- & Hn). apply list_elem_of_In, elem_of_seqZ in Hn.
    assert (Hr : 1 <= n <= MAXORDINAL) by lia.
    pose proof (fromordinal_valid n Hr) as Hv. pose proof (toordinal_fromordinal n Hr) as Ho.
    split; trivial. split.
    + unfold date_le. destruct (date_ltb (fromordinal n) a) eqn:Hlt; trivial.
      apply (toordinal_mono _ _ Hv Ha) in Hlt. lia.
    + apply toordinal_lt_iff; trivial. lia.
  - intros (Hv & Hle & Hlt). exists (toordinal d). split; [now apply fromordinal_toordinal|].
    apply list_elem_of_In, elem_of_seqZ.
    apply (toordinal_mono _ _ Hv Hb) in Hlt. split; [|lia].
    destruct (Z.le_gt_cases (toordinal a) (toordinal d)) as [|Hgt]; trivial.
    assert (Hl : date_lt d a) by (apply toordinal_lt_iff; trivial; lia).
    unfold date_le, date_lt in *. congruence.
Qed.

Lemma days_between_NoDup (a b : date) : valid a -> valid b -> List.NoDup (days_between a b).
Proof.
  intros Ha Hb. pose proof (toordinal_range a Ha). pose proof (toordinal_range b Hb).
  unfold days_between. apply NoDup_ListNoDup. apply NoDup_fmap_2_strong; [|apply NoDup_seqZ].
  intros x y Hx Hy Heq. apply elem_of_seqZ in Hx, Hy.
  rewrite <- (toordinal_fromordinal x), <- (toordinal_fromordinal y) by lia. now f_equal.
Qed.

Lemma in_make_tasks (dates : list date) (instruments : list string) (d : date) (i : string) :
  In (d, i) (make_tasks dates instruments) <-> In d dates /\ In i instruments.
Proof.
  unfold make_tasks. rewrite in_flat_map. split.
  - intros (d' & Hd & Hi). apply in_map_iff in Hi as (i' & Heq & Hi). now injection Heq as -> ->.
  - intros [Hd Hi]. exists d. split; trivial. apply in_map_iff. now exists i.
Qed.


(* ===================================================================== *)
(** * The pool                                                            *)
(* ===================================================================== *)

Lemma exec_remote {R : Type} (c : cmd R) (w w' : world) (r : result R) :
  exec c w = (w', r) -> remote w' = remote w.
Proof.
  destruct c as [lvl msg|p|code d|p df]; cbn [exec].
  - now intros [= <- _].
  - intros H. now apply mkdir_files in H.
  - now intros [= <- _].
  - intros H. now apply to_csv_spec in H.
Qed.

Lemma exec_resp_ok {R : Type} (c : cmd R) (w w' : world) (r : result R) :
  exec c w = (w', r) -> resp_ok (remote w) c r.
Proof.
  destruct c as [lvl msg|p|code d|p df]; cbn [exec resp_ok]; trivial.
  - now intros [= _ <-].
  - now intros [= _ <-].
Qed.

Lemma own_app (k : nat) (tr1 tr2 : list (thread * event)) :
  own k (tr1 ++ tr2) = own k tr1 ++ own k tr2.
Proof. unfold own. apply flat_map_app. Qed.

Lemma own_snoc_same (k : nat) (tr : list (thread * event)) (ev : event) :
  own k (tr ++ [(Worker k, ev)]) = own k tr ++ [ev].
Proof. rewrite own_app. cbn. now rewrite Nat.eqb_refl. Qed.

Lemma own_snoc_other (j k : nat) (tr : list (thread * event)) (ev : event) :
  j <> k -> own j (tr ++ [(Worker k, ev)]) = own j tr.
Proof.
  intros Hne. rewrite own_app. cbn.
  destruct (Nat.eqb_spec k j); [congruence|]. apply app_nil_r.
Qed.

Lemma in_own (k : nat) (tr : list (thread * event)) (ev : event) :
  In ev (own k tr) <-> In (Worker k, ev) tr.
Proof.
  unfold own. rewrite in_flat_map. split.
  - intros ([[|j] ev'] & Hin & H); cbn [fst snd] in H; [contradiction|].
    destruct (Nat.eqb_spec j k); [|contradiction]. destruct H as [->|[]]. now subst j.
  - intros Hin. exists (Worker k, ev). split; [exact Hin|]. cbn [fst snd].
    rewrite Nat.eqb_refl. now left.
Qed.

Section PoolInvariant.

Variable self : MarketDataDownloader.

Variable max_workers : nat.

Variable tasks : list (date * string).

Variable rem : string -> date -> result DataFrame.

Variable Out : date * string -> list event -> option failure -> Prop.

Variable N : nat.

Hypothesis workers : (1 <= max_workers)%nat.

Hypothesis task_conforms :
  forall d i, conforms rem (Out (d, i)) N (download_single_date_instrument self d i) [].

Local Abbreviation actives := (actives_inv tasks rem Out).

Local Abbreviation invariant := (pool_inv tasks rem Out N).

Lemma actives_inv_app tr l1 l2 m1 m2 :
  actives tr l1 m1 -> actives tr l2 m2 -> actives tr (l1 ++ l2) (m1 + m2).
Proof.
  intros H1 H2. induction H1 as [|k p n l m t Hk Hp Hl IH]; cbn [app]; [exact H2|].
  replace (S n + m + m2)%nat with (S n + (m + m2))%nat by lia. econstructor; eauto.
Qed.

Lemma actives_inv_split tr l1 l2 m :
  actives tr (l1 ++ l2) m ->
  exists m1 m2, actives tr l1 m1 /\ actives tr l2 m2 /\ m = (m1 + m2)%nat.
Proof.
  revert m. induction l1 as [|[k p] l1 IH]; intros m H; cbn [app] in H.
  - exists 0%nat, m. split; [constructor|]. auto.
  - inversion H as [|k' p' n l' m' t Hk Hp Hl]; subst.
    destruct (IH _ Hl) as (m1 & m2 & H1 & H2 & ->).
    exists (S n + m1)%nat, m2. split; [econstructor; eauto|]. split; [exact H2 | lia].
Qed.

(** Events of other workers leave what is known of a task as it was. *)
Lemma actives_inv_ext tr tr' l m :
  actives tr l m -> (forall k, In k (map fst l) -> own k tr' = own k tr) ->
  actives tr' l m.
Proof.
  intros H. induction H as [|k p n l m t Hk Hp Hl IH]; intros Hown; [constructor|].
  econstructor; eauto.
  - rewrite Hown; [exact Hp | now left].
  - apply IH. intros k' Hin. apply Hown. now right.
Qed.

Lemma pool_inv_init (w : world) :
  remote w = rem -> invariant (submit_all tasks w) ((N + 2) * length tasks).
Proof.
  intros Hr. unfold submit_all. constructor; cbn [pworld queue active finished ptrace].
  - exact Hr.
  - apply Forall_forall. intros [k t] Hin. unfold queued_ok. cbn [fst snd].
    apply list_elem_of_lookup in Hin as [j Hj].
    apply lookup_zip_Some in Hj as [Hk Ht]. apply lookup_seq in Hk as [-> _]. auto.
  - exists 0%nat. split; [constructor|]. rewrite length_zip, length_seq. lia.
  - constructor.
  - constructor.
  - cbn [map app]. rewrite app_nil_r.
    change (map fst (zip (seq 0 (length tasks)) tasks)) with ((zip (seq 0 (length tasks)) tasks).*1).
    rewrite fst_zip by (rewrite length_seq; lia). reflexivity.
Qed.

(** Unless the pool is drained some move is possible. *)
Lemma moves_available (st : pool) :
  drained st = false ->
  ((if can_start max_workers st then 1 else 0) + length (active st) <> 0)%nat.
Proof.
  unfold drained, can_start. intros Hd.
  destruct (active st) as [|a l]; cbn [length].
  - rewrite andb_true_r in Hd. rewrite Hd. cbn [negb andb].
    destruct (Nat.ltb_spec 0 max_workers); [lia | lia].
  - generalize (negb (length (queue st) =? 0)%nat && (S (length l) <? max_workers)%nat).
    intros []; lia.
Qed.

Lemma start_next_inv (st : pool) (b : nat) :
  invariant st b -> queue st <> [] ->
  exists b', (b' < b)%nat /\ invariant (start_next self st) b'.
Proof.
  intros [Hr Hq (m & Ha & ->) Hf Ht Hp] Hne. unfold start_next.
  destruct (queue st) as [|[k [d i]] q] eqn:Eq; [congruence|].
  apply Forall_cons in Hq as [[Hk Hown] Hq]. cbn [fst snd] in Hk, Hown.
  exists ((N + 2) * length q + (m + S N))%nat. split; [cbn [length]; lia|].
  constructor; cbn [pworld queue active finished ptrace]; trivial.
  - exists (m + S N)%nat. split; [|reflexivity].
    apply actives_inv_app; [exact Ha|].
    replace (S N) with (S N + 0)%nat by lia. econstructor; [exact Hk | | constructor].
    rewrite Hown. apply task_conforms.
  - rewrite <- Hp. cbn [map fst]. rewrite map_app. cbn [map fst app].
    replace (map fst q ++ (map fst (active st) ++ [k]) ++ map fst (finished st))
      with ((map fst q ++ map fst (active st)) ++ k :: map fst (finished st))
      by (now rewrite <- !app_assoc).
    symmetry. apply Permutation_cons_app. now rewrite <- app_assoc.
Qed.

(** The numbers of the queued, running and completed tasks are distinct. *)
Lemma pool_ids_NoDup (st : pool) (b : nat) :
  invariant st b ->
  NoDup (map fst (queue st) ++ map fst (active st) ++ map fst (finished st)).
Proof. intros [_ _ _ _ _ Hp]. rewrite Hp. apply NoDup_seq. Qed.

Lemma step_worker_inv (st : pool) (b j : nat) :
  invariant st b -> (j < length (active st))%nat ->
  exists b', (b' < b)%nat /\ invariant (step_worker j st) b'.
Proof.
  intros Hinv Hj. pose proof (pool_ids_NoDup st b Hinv) as Hnd.
  destruct Hinv as [Hr Hq (m & Ha & ->) Hf Ht Hp]. unfold step_worker.
  apply lookup_lt_is_Some in Hj as [[k p] Hkp]. rewrite Hkp.
  pose proof (take_drop_middle _ _ _ Hkp) as Hmid.
  pose proof (delete_take_drop (active st) j) as Hdel.
  pose proof (fun x => insert_take_drop (active st) j x (lookup_lt_Some _ _ _ Hkp)) as Hins.
  revert Hmid Hdel Hins.
  generalize (take j (active st)) (drop (S j) (active st)). intros l1 l2 Hmid Hdel Hins.
  rewrite <- Hmid in Ha, Hp, Hnd.
  apply actives_inv_split in Ha as (m1 & m2' & Ha1 & Ha2 & ->).
  inversion Ha2 as [|k' p' n l' m2 t Hk Hc Hl2]; subst k' p' l' m2'. clear Ha2.
  rewrite map_app in Hp, Hnd. cbn [map fst] in Hp, Hnd.
  (* [k] is the number of no other task *)
  assert (Hother : forall k', In k' (map fst (queue st)) \/ In k' (map fst l1) \/
                              In k' (map fst l2) \/ In k' (map fst (finished st)) -> k' <> k).
  { intros k' Hin ->.
    apply NoDup_app in Hnd as (_ & Hq1 & Hnd).
    apply NoDup_app in Hnd as (Hnd & Hq2 & _).
    apply NoDup_app in Hnd as (_ & Hq3 & Hnd).
    apply NoDup_cons in Hnd as [Hq4 _].
    destruct Hin as [H|[H|[H|H]]].
    - apply (Hq1 k); [now apply list_elem_of_In|].
      apply list_elem_of_In. apply in_or_app. left. apply in_or_app. right. now left.
    - apply (Hq3 k); [now apply list_elem_of_In | left].
    - apply Hq4. now apply list_elem_of_In.
    - apply (Hq2 k); [|now apply list_elem_of_In].
      apply list_elem_of_In. apply in_or_app. right. now left. }
  destruct p as [r|e|R c cont].
  - (* the task returned *)
    rewrite Hdel.
    exists ((N + 2) * length (queue st) + (m1 + m2))%nat. split; [lia|].
    constructor; cbn [pworld queue active finished ptrace]; trivial.
    + exists (m1 + m2)%nat. split; [now apply actives_inv_app | reflexivity].
    + apply Forall_app. split; trivial. constructor; [|constructor].
      exists t, r. cbn [fst snd]. cbn [conforms] in Hc. auto.
    + rewrite <- Hp, !map_app. cbn [map fst].
      rewrite <- !app_assoc. apply Permutation_app_head, Permutation_app_head.
      cbn [app]. rewrite app_assoc. symmetry. apply Permutation_cons_append.
  - (* an exception cannot escape *)
    cbn in Hc. contradiction.
  - destruct n as [|n]; cbn [conforms] in Hc; [contradiction|].
    destruct (exec c (pworld st)) as [w' r] eqn:Hex.
    pose proof (exec_remote _ _ _ _ Hex) as Hrem.
    pose proof (exec_resp_ok _ _ _ _ Hex) as Hresp. rewrite Hr in Hresp.
    rewrite Hins.
    exists ((N + 2) * length (queue st) + (m1 + (S n + m2)))%nat. split; [lia|].
    constructor; cbn [pworld queue active finished ptrace].
    + congruence.
    + apply Forall_forall. intros x Hx. rewrite Forall_forall in Hq.
      destruct (Hq x Hx) as [Hx1 Hx2]. split; [exact Hx1|].
      rewrite own_snoc_other; [exact Hx2|].
      apply Hother. left. apply in_map. now apply list_elem_of_In.
    + exists (m1 + (S n + m2))%nat. split; [|reflexivity].
      apply actives_inv_app.
      * apply (actives_inv_ext (ptrace st)); [exact Ha1|].
        intros k' Hin. apply own_snoc_other. apply Hother. auto.
      * econstructor; [exact Hk | |].
        -- rewrite own_snoc_same. now apply Hc.
        -- apply (actives_inv_ext (ptrace st)); [exact Hl2|].
           intros k' Hin. apply own_snoc_other. apply Hother. auto.
    + apply Forall_forall. intros x Hx. rewrite Forall_forall in Hf.
      destruct (Hf x Hx) as (t' & r' & Hx1 & Hx2 & Hx3). exists t', r'.
      split; [exact Hx1|]. split; [exact Hx2|].
      rewrite own_snoc_other; [exact Hx3|].
      apply Hother. do 3 right. apply in_map. now apply list_elem_of_In.
    + apply Forall_app. split; trivial. constructor; [|constructor].
      exists k. cbn [fst snd]. split; [reflexivity|]. now apply lookup_lt_Some in Hk.
    + rewrite <- Hp, !map_app. reflexivity.
Qed.

Lemma pool_step_inv (st : pool) (b choice : nat) :
  invariant st b -> drained st = false ->
  exists b', (b' < b)%nat /\ invariant (pool_step self max_workers choice st) b'.
Proof.
  intros Hinv Hd. pose proof (moves_available st Hd) as Hmoves. unfold pool_step.
  set (moves := ((if can_start max_workers st then 1 else 0) + length (active st))%nat) in *.
  destruct moves as [|moves'] eqn:Em; [congruence|].
  pose proof (Nat.mod_upper_bound choice (S moves') ltac:(lia)) as Hlt.
  destruct (can_start max_workers st) eqn:Hcs.
  - destruct (choice mod S moves')%nat as [|j] eqn:Ej.
    + apply start_next_inv; trivial. unfold can_start in Hcs.
      apply andb_prop in Hcs as [Hq _]. destruct (queue st); [discriminate | congruence].
    + apply step_worker_inv; trivial. subst moves. lia.
  - apply step_worker_inv; trivial. subst moves. lia.
Qed.

Lemma drained_true (st : pool) : drained st = true -> queue st = [] /\ active st = [].
Proof.
  unfold drained. intros Hd. apply andb_prop in Hd as [H1 H2]. apply Nat.eqb_eq in H1, H2.
  split; [destruct (queue st) | destruct (active st)]; trivial; discriminate.
Qed.

(** A schedule at least as long as the budget drains the pool. *)
Lemma run_pool_inv (sched : list nat) (st : pool) (b : nat) :
  invariant st b -> (b <= length sched)%nat ->
  exists st' b', run_pool self max_workers sched st = Some st' /\
                 invariant st' b' /\ queue st' = [] /\ active st' = [].
Proof.
  revert st b. induction sched as [|choice sched IH]; intros st b Hinv Hb.
  - cbn [run_pool]. destruct (drained st) eqn:Hd.
    + apply drained_true in Hd as [Hq Ha]. now exists st, b.
    + destruct (pool_step_inv st b 0 Hinv Hd) as (b' & Hlt & _). cbn in Hb. lia.
  - cbn [run_pool]. destruct (drained st) eqn:Hd.
    + apply drained_true in Hd as [Hq Ha]. now exists st, b.
    + destruct (pool_step_inv st b choice Hinv Hd) as (b' & Hlt & Hinv').
      apply (IH _ b' Hinv'). cbn [length] in Hb. lia.
Qed.

End PoolInvariant.


(* ===================================================================== *)
(** * The contract of a task                                              *)
(* ===================================================================== *)

Lemma outcome_eq (self : MarketDataDownloader) (rem : string -> date -> result DataFrame)
  (d : date) (i : string) (h h' : list event) (r : option failure) :
  task_outcome self rem d i h' r -> h = h' -> task_outcome self rem d i h r.
Proof. now intros H ->. Qed.

(** The handler: one line in the log, then the failure. *)
Lemma handler_conforms (self : MarketDataDownloader) (rem : string -> date -> result DataFrame)
  (d : date) (i : string) (e : exc) (n : nat) (h : list event) :
  task_outcome self rem d i (h ++ [error_line d i e]) (Some (d, i, exc_msg e)) ->
  conforms rem (task_outcome self rem d i) (S n) (task_handler d i e) h.
Proof.
  intros H. unfold task_handler. cbn [bind call conforms event_of resp_ok].
  intros r ->. cbn [bind conforms]. exact H.
Qed.

(** A task issues nine commands at most and ends in one of its outcomes. *)
Lemma task_conforms (self : MarketDataDownloader) (rem : string -> date -> result DataFrame)
  (d : date) (i : string) :
  conforms rem (task_outcome self rem d i) 9 (download_single_date_instrument self d i) [].
Proof.
  unfold download_single_date_instrument, task_body.
  destruct (is_weekend d) eqn:W.
  - cbn [bind call try_except conforms event_of resp_ok].
    intros r ->. cbn [bind try_except conforms]. now apply out_weekend.
  - rewrite create_directory_structure_plan.
    cbn [bind call try_except conforms event_of resp_ok].
    intros r ->. cbn [bind call try_except conforms event_of resp_ok].
    intros [e|[]] _; cbn [bind call try_except conforms event_of resp_ok].
    { apply handler_conforms.
      eapply outcome_eq; [apply (out_mkdir_raised self rem d i 1 e W); lia | reflexivity]. }
    intros [e|[]] _; cbn [bind call try_except conforms event_of resp_ok].
    { apply handler_conforms.
      eapply outcome_eq; [apply (out_mkdir_raised self rem d i 2 e W); lia | reflexivity]. }
    intros [e|[]] _; cbn [bind call try_except conforms event_of resp_ok].
    { apply handler_conforms.
      eapply outcome_eq; [apply (out_mkdir_raised self rem d i 3 e W); lia | reflexivity]. }
    intros [e|raw] Hraw; cbn [bind call try_except conforms event_of resp_ok].
    { apply handler_conforms.
      eapply outcome_eq; [apply (out_fetch_raised self rem d i e W); congruence | reflexivity]. }
    destruct (process_data raw i) as [e|data] eqn:Hdata; cbn [lift bind try_except].
    { apply handler_conforms.
      eapply outcome_eq;
        [apply (out_classify_raised self rem d i raw e W); congruence | reflexivity]. }
    pose proof (fun n e => out_write_raised self rem d i raw data n e W (eq_sym Hraw) Hdata)
      as Hraised.
    pose proof (out_done self rem d i raw data W (eq_sym Hraw) Hdata) as Hdone.
    unfold save_data, writes_of in *. cbv zeta.
    destruct (empty (futures data)), (empty (spot data)), (empty (options data));
      cbn [negb app map length write_event fst snd] in *;
      repeat (cbn [bind call try_except conforms event_of resp_ok];
              match goal with
              | |- forall r : result unit, True -> _ =>
                  intros [e|[]] _;
                  [apply handler_conforms;
                   solve [ eapply outcome_eq; [apply (Hraised 1%nat e); lia | reflexivity]
                         | eapply outcome_eq; [apply (Hraised 2%nat e); lia | reflexivity]
                         | eapply outcome_eq; [apply (Hraised 3%nat e); lia | reflexivity] ] |]
              end);
      cbn [bind call try_except conforms event_of resp_ok];
      (eapply outcome_eq; [exact Hdone | reflexivity]).
Qed.

(** A program that keeps to a contract, run alone. *)
Lemma run_conforms (rem : string -> date -> result DataFrame)
  (Out : list event -> option failure -> Prop) (p : prog (option failure)) (n : nat)
  (w : world) (h : list event) :
  remote w = rem -> conforms rem Out n p h ->
  exists w' tr x, run p w = (w', tr, ret x) /\ Out (h ++ tr) x /\ remote w' = rem.
Proof.
  revert n w h. induction p as [x|e|R c k IH]; intros n w h Hrem Hc; cbn [conforms] in Hc.
  - exists w, [], x. cbn [run]. rewrite app_nil_r. auto.
  - contradiction.
  - destruct n as [|n]; [contradiction|]. cbn [run].
    destruct (exec c w) as [w1 r] eqn:Hex.
    pose proof (exec_remote _ _ _ _ Hex) as Hr1.
    pose proof (exec_resp_ok _ _ _ _ Hex) as Hresp. rewrite Hrem in Hresp.
    destruct (IH r n w1 _ ltac:(congruence) (Hc r Hresp)) as (w' & tr & x & Hrun & Hx & Hr').
    rewrite Hrun. exists w', (event_of c :: tr), x.
    rewrite <- app_assoc in Hx. auto.
Qed.

(** Run alone, a task returns, in one of its outcomes. *)
Lemma run_task_outcome (self : MarketDataDownloader) (d : date) (i : string) (w : world) :
  exists w' tr r,
    run (download_single_date_instrument self d i) w = (w', tr, ret r) /\
    task_outcome self (remote w) d i tr r.
Proof.
  destruct (run_conforms (remote w) _ _ 9 w [] eq_refl (task_conforms self (remote w) d i))
    as (w' & tr & r & Hrun & Hout & _).
  now exists w', tr, r.
Qed.

Lemma in_firstn {A : Type} (n : nat) (l : list A) (x : A) : In x (firstn n l) -> In x l.
Proof.
  revert l. induction n as [|n IH]; intros [|y l]; cbn [firstn]; try contradiction.
  intros [H|H]; [now left | right; auto].
Qed.

Lemma outcome_weekend (self : MarketDataDownloader) (rem : string -> date -> result DataFrame)
  (d : date) (i : string) (h : list event) (r : option failure) :
  is_weekend d = true -> task_outcome self rem d i h r -> h = [skip_line d] /\ r = None.
Proof. intros W H. destruct H; try congruence. auto. Qed.

(** The result is a failure exactly when the error line was written,
    and the failure carries the message of that line. *)
Lemma outcome_result (self : MarketDataDownloader) (rem : string -> date -> result DataFrame)
  (d : date) (i : string) (h : list event) (r : option failure) :
  task_outcome self rem d i h r ->
  (r = None /\ forall msg, ~ In (EvLog ERROR msg) h) \/
  (exists e, r = Some (d, i, exc_msg e) /\ In (error_line d i e) h /\ is_weekend d = false).
Proof.
  assert (Hplan : forall msg, ~ In (EvLog ERROR msg) (plan_events (plan self d i))).
  { intros msg H. cbn [plan_events In] in H. repeat destruct H as [H|H]; try discriminate.
    contradiction. }
  intros H. destruct H as [W|n e W Hn|e W Hrem|raw e W Hrem Hp|raw data n e W Hrem Hp Hn
                          |raw data W Hrem Hp].
  - left. split; [reflexivity|]. intros msg [H|[]]. discriminate.
  - right. exists e. split; [reflexivity|]. split; [|exact W].
    right. apply in_or_app. right. now left.
  - right. exists e. split; [reflexivity|]. split; [|exact W].
    right. apply in_or_app. right. right. now left.
  - right. exists e. split; [reflexivity|]. split; [|exact W].
    right. apply in_or_app. right. right. now left.
  - right. exists e. split; [reflexivity|]. split; [|exact W].
    right. apply in_or_app. right. right. apply in_or_app. right. now left.
  - left. split; [reflexivity|]. intros msg [H|H]; [discriminate|].
    apply in_app_or in H as [H|[H|H]]; [now apply Hplan in H | discriminate |].
    apply in_map_iff in H as (x & H & _). discriminate.
Qed.

(** A fetch among the events is the fetch of the lowercased instrument
    for the date of the task, on a working day. *)
Lemma outcome_fetch (self : MarketDataDownloader) (rem : string -> date -> result DataFrame)
  (d : date) (i : string) (h : list event) (r : option failure) (code : string) (d' : date) :
  task_outcome self rem d i h r -> In (EvFetch code d') h ->
  is_weekend d = false /\ code = lower i /\ d' = d.
Proof.
  assert (Hplan : forall n, ~ In (EvFetch code d') (firstn n (plan_events (plan self d i)))).
  { intros n H. apply in_firstn in H. cbn [plan_events In] in H.
    repeat destruct H as [H|H]; try discriminate. contradiction. }
  assert (Hall : ~ In (EvFetch code d') (plan_events (plan self d i))).
  { apply (Hplan 3%nat). }
  intros H. destruct H as [W|n e W Hn|e W Hrem|raw e W Hrem Hp|raw data n e W Hrem Hp Hn
                          |raw data W Hrem Hp]; intros Hin.
  - destruct Hin as [H|[]]. discriminate.
  - destruct Hin as [H|H]; [discriminate|].
    apply in_app_or in H as [H|[H|[]]]; [now apply Hplan in H | discriminate].
  - destruct Hin as [H|H]; [discriminate|].
    apply in_app_or in H as [H|[H|[H|[]]]]; [contradiction | | discriminate].
    injection H as <- <-. auto.
  - destruct Hin as [H|H]; [discriminate|].
    apply in_app_or in H as [H|[H|[H|[]]]]; [contradiction | | discriminate].
    injection H as <- <-. auto.
  - destruct Hin as [H|H]; [discriminate|].
    apply in_app_or in H as [H|[H|H]]; [contradiction | injection H as <- <-; auto |].
    apply in_app_or in H as [H|[H|[]]]; [|discriminate].
    apply in_firstn, in_map_iff in H as (x & H & _). discriminate.
  - destruct Hin as [H|H]; [discriminate|].
    apply in_app_or in H as [H|[H|H]]; [contradiction | injection H as <- <-; auto |].
    apply in_map_iff in H as (x & H & _). discriminate.
Qed.


(** Once the fetch is made, an exception of the remote or of the
    classification is the failure of the task. *)
Lemma outcome_fetch_raised (self : MarketDataDownloader)
  (rem : string -> date -> result DataFrame) (d : date) (i : string) (h : list event)
  (r : option failure) (e : exc) :
  task_outcome self rem d i h r -> In (EvFetch (lower i) d) h ->
  rem (lower i) d = raise e -> r = Some (d, i, exc_msg e).
Proof.
  intros H Hin Hraise.
  destruct H as [W|n e' W Hn|e' W Hrem|raw e' W Hrem Hp|raw data n e' W Hrem Hp Hn
                |raw data W Hrem Hp]; try congruence.
  - destruct Hin as [H|[]]. discriminate.
  - destruct Hin as [H|H]; [discriminate|].
    apply in_app_or in H as [H|[H|[]]]; [|discriminate].
    apply in_firstn in H. cbn [plan_events In] in H.
    repeat destruct H as [H|H]; try discriminate. contradiction.
Qed.

Lemma outcome_classify_raised (self : MarketDataDownloader)
  (rem : string -> date -> result DataFrame) (d : date) (i : string) (h : list event)
  (r : option failure) (raw : DataFrame) (e : exc) :
  task_outcome self rem d i h r -> In (EvFetch (lower i) d) h ->
  rem (lower i) d = ret raw -> process_data raw i = raise e -> r = Some (d, i, exc_msg e).
Proof.
  intros H Hin Hraw Hraise.
  destruct H as [W|n e' W Hn|e' W Hrem|raw' e' W Hrem Hp|raw' data n e' W Hrem Hp Hn
                |raw' data W Hrem Hp]; try congruence.
  - destruct Hin as [H|[]]. discriminate.
  - destruct Hin as [H|H]; [discriminate|].
    apply in_app_or in H as [H|[H|[]]]; [|discriminate].
    apply in_firstn in H. cbn [plan_events In] in H.
    repeat destruct H as [H|H]; try discriminate. contradiction.
Qed.

Lemma collect_ok (tasks : list (date * string))
  (Out : date * string -> list event -> option failure -> Prop) (tr : list (thread * event))
  (done : list (nat * result (option failure))) :
  List.Forall (finished_ok tasks Out tr) done -> collect done = ret (failures_of done).
Proof.
  induction 1 as [|[k r] done (t & x & _ & Hr & _) _ IH]; [reflexivity|].
  cbn [snd] in Hr. subst r. cbn [collect failures_of flat_map snd].
  fold (failures_of done). destruct x as [f|]; [|exact IH]. now rewrite IH.
Qed.

Lemma report_log_main (errors : list failure) (th : thread) (ev : event) :
  In (th, ev) (report_log errors) -> th = Main /\ exists lvl msg, ev = EvLog lvl msg.
Proof.
  unfold report_log. destruct errors as [|f errors]; [intros []|].
  intros [H|H].
  - injection H as <- <-. eauto.
  - apply in_map_iff in H as ([[d i] m] & H & _). injection H as <- <-. eauto.
Qed.

Lemma own_report_log (k : nat) (tr : list (thread * event)) (errors : list failure) :
  own k (tr ++ report_log errors) = own k tr.
Proof.
  rewrite own_app. replace (own k (report_log errors)) with (@nil event); [apply app_nil_r|].
  symmetry. destruct (own k (report_log errors)) as [|ev l] eqn:E; [reflexivity|].
  assert (Hin : In ev (own k (report_log errors))) by (rewrite E; now left).
  apply in_own, report_log_main in Hin as [Hin _]. discriminate.
Qed.

Lemma failures_of_results (done : list (nat * result (option failure))) :
  failures_of done = omap snd (results_of done).
Proof.
  induction done as [|[k [e|[f|]]] done IH]; cbn; trivial. now f_equal.
Qed.

(** Per task one decision starts it, at most nine run its commands and
    one completes it: a schedule of eleven decisions per task drains the
    pool.  Then every task has completed, once, and the events of its
    worker with its result are an outcome of that task; the events of the
    main thread are those of the final report. *)
Lemma download_data_run (self : MarketDataDownloader) (a b : date) (instruments : list string)
  (max_workers : Z) (sched : list nat) (w : world) (dates : list date) :
  date_range a b = Some (ret dates) ->
  0 < max_workers ->
  (11 * length (make_tasks dates instruments) <= length sched)%nat ->
  let tasks := make_tasks dates instruments in
  exists w' tr results,
    download_data self a b instruments max_workers sched w =
      Some (w', tr, ret (omap snd results)) /\
    remote w' = remote w /\
    map fst results ≡ₚ seq 0 (length tasks) /\
    (forall k r, In (k, r) results ->
       exists d i, tasks !! k = Some (d, i) /\
                   task_outcome self (remote w) d i (own k tr) r) /\
    (forall th ev, In (th, ev) tr ->
       (th = Main /\ exists lvl msg, ev = EvLog lvl msg) \/
       (exists k r, th = Worker k /\ In (k, r) results)).
Proof.
  intros Hdates Hmw Hlen tasks. unfold download_data. rewrite Hdates.
  replace (max_workers <=? 0) with false by (symmetry; apply Z.leb_gt; lia).
  fold tasks.
  set (Out := fun t : date * string => task_outcome self (remote w) (fst t) (snd t)).
  pose proof (pool_inv_init (Z.to_nat max_workers) tasks (remote w) Out 9 ltac:(lia) w eq_refl)
    as Hinit.
  destruct (run_pool_inv self (Z.to_nat max_workers) tasks (remote w) Out 9 ltac:(lia)
              (fun d i => task_conforms self (remote w) d i) sched _ _ Hinit Hlen)
    as (st & b' & Hrun & [Hr Hq _ Hf Ht Hp] & Hq0 & Ha0).
  rewrite Hq0, Ha0 in Hp. cbn [map app] in Hp.
  exists (pworld st), (ptrace st ++ report_log (failures_of (finished st))),
    (results_of (finished st)).
  rewrite Hrun, (collect_ok _ _ _ _ Hf), failures_of_results.
  assert (Hids : map fst (results_of (finished st)) = map fst (finished st)).
  { unfold results_of. rewrite map_map. reflexivity. }
  split; [reflexivity|]. split; [exact Hr|]. split; [now rewrite Hids|]. split.
  - intros k r Hin. unfold results_of in Hin.
    apply in_map_iff in Hin as ([k' r'] & Heq & Hin). cbn [fst snd] in Heq.
    rewrite List.Forall_forall in Hf.
    apply Hf in Hin as ([d i] & x & Hk & Hx & Hout). cbn [fst snd] in Hk, Hx, Hout.
    subst r'. injection Heq as -> ->. exists d, i. split; [exact Hk|].
    rewrite <- failures_of_results, own_report_log. exact Hout.
  - intros th ev Hin. apply in_app_or in Hin as [Hin|Hin].
    + right. rewrite List.Forall_forall in Ht.
      apply Ht in Hin as (k & Hth & Hk). cbn [fst] in Hth. subst th.
      assert (Hin : In k (map fst (results_of (finished st)))).
      { rewrite Hids. apply list_elem_of_In. rewrite Hp. apply list_elem_of_In.
        apply in_seq. lia. }
      apply in_map_iff in Hin as ([k' r] & Hk' & Hin). cbn [fst] in Hk'. subst k'.
      now exists k, r.
    + left. now apply report_log_main in Hin.
Qed.


(* ===================================================================== *)
(** * The claims                                                          *)
(* ===================================================================== *)

(** C1 as the specification states it fails: for the range Saturday
    2024-01-06 to Monday 2024-01-08 and one instrument, two tasks are
    created, one per weekend day, and each is run by a worker. *)
Lemma C1_weekend_tasks_are_created :
  is_weekend saturday = true /\
  date_range saturday next_monday = Some (ret [saturday; sunday]) /\
  make_tasks [saturday; sunday] ["NIFTY"] = [(saturday, "NIFTY"); (sunday, "NIFTY")] /\
  download_data ex_self saturday next_monday ["NIFTY"] 4 (replicate 22 0%nat) ex_world =
    Some (ex_world,
          [(Worker 0, EvLog INFO "Skipping weekend: 06/01/2024");
           (Worker 1, EvLog INFO "Skipping weekend: 07/01/2024")],
          ret []).
Proof. repeat split; vm_compute; reflexivity. Qed.

(** C1, amended: for every date of the enumerated range that is a
    Saturday or a Sunday a task is still created for each instrument, but
    the task does nothing except write one line to the log: under every
    schedule of the pool its worker issues that line and nothing else (no
    directory, no fetch, no file) and its future holds no result, no fetch
    for that date occurs anywhere in the batch, and the report holds no
    failure for that date. *)
Theorem C1_weekend_tasks_only_log (self : MarketDataDownloader) (a b : date)
  (instruments : list string) (max_workers : Z) (sched : list nat) (w : world) :
  valid a -> valid b -> 0 < max_workers ->
  (11 * length (make_tasks (days_between a b) instruments) <= length sched)%nat ->
  let tasks := make_tasks (days_between a b) instruments in
  date_range a b = Some (ret (days_between a b)) /\
  exists w' tr (results : list (nat * option failure)),
    download_data self a b instruments max_workers sched w =
      Some (w', tr, ret (omap snd results)) /\
    map fst results ≡ₚ seq 0 (length tasks) /\
    forall d, In d (days_between a b) -> is_weekend d = true ->
      (forall i, In i instruments -> In (d, i) tasks) /\
      (forall i w0, run (download_single_date_instrument self d i) w0 =
                    (w0, [EvLog INFO ("Skipping weekend: " +:+ strftime "%d/%m/%Y" d)],
                     ret None)) /\
      (forall k i r, tasks !! k = Some (d, i) -> In (k, r) results ->
                     own k tr = [EvLog INFO ("Skipping weekend: " +:+ strftime "%d/%m/%Y" d)] /\
                     r = None) /\
      (forall th code, ~ In (th, EvFetch code d) tr) /\
      (forall i msg, ~ In (d, i, msg) (omap snd results)).
Proof.
  intros Ha Hb Hmw Hlen tasks.
  pose proof (date_range_spec a b Ha Hb) as Hrange. split; [exact Hrange|].
  destruct (download_data_run self a b instruments max_workers sched w _ Hrange Hmw Hlen)
    as (w' & tr & results & Hrun & _ & Hperm & Hout & Htr).
  fold tasks in Hperm, Hout.
  exists w', tr, results. split; [exact Hrun|]. split; [exact Hperm|].
  intros d Hd Hwe. split; [|split; [|split; [|split]]].
  - intros i Hi. apply in_make_tasks. split; assumption.
  - intros i w0. now apply run_task_weekend.
  - intros k i r Hk Hin. destruct (Hout k r Hin) as (d' & i' & Hk' & Ho).
    rewrite Hk in Hk'. injection Hk' as <- <-.
    now apply outcome_weekend in Ho.
  - intros th code Hin. destruct (Htr _ _ Hin) as [[_ (lvl & msg & H)]|(k & r & -> & Hk)].
    + discriminate.
    + destruct (Hout k r Hk) as (d' & i' & _ & Ho).
      apply in_own in Hin. destruct (outcome_fetch _ _ _ _ _ _ _ _ Ho Hin) as (W & _ & ->).
      congruence.
  - intros i msg Hin. apply list_elem_of_In, list_elem_of_omap in Hin as ([k r] & Hin & Hr).
    cbn [snd] in Hr. subst r. apply list_elem_of_In in Hin.
    destruct (Hout k _ Hin) as (d' & i' & _ & Ho).
    destruct (outcome_result _ _ _ _ _ _ Ho) as [[H _]|(e & H & _ & W)]; [discriminate|].
    injection H as -> _ _. congruence.
Qed.

Lemma C1_witness :
  valid saturday /\ valid next_monday /\
  (11 * length (make_tasks (days_between saturday next_monday) ["NIFTY"]) <=
   length (replicate 22 0%nat))%nat /\
  date_range saturday next_monday = Some (ret (days_between saturday next_monday)).
Proof.
  assert (Ha : valid saturday) by (apply validb_valid; reflexivity).
  assert (Hb : valid next_monday) by (apply validb_valid; reflexivity).
  assert (Hlen : (11 * length (make_tasks (days_between saturday next_monday) ["NIFTY"]) <=
                  length (replicate 22 0%nat))%nat) by (vm_compute; lia).
  split; [exact Ha|]. split; [exact Hb|]. split; [exact Hlen|].
  apply (C1_weekend_tasks_only_log ex_self saturday next_monday ["NIFTY"] 4
           (replicate 22 0%nat) ex_world Ha Hb ltac:(lia) Hlen).
Defined.

(** C2 as the specification states it fails: of the four rows of a frame
    whose symbol column has the nullable string type and holds one [<NA>],
    [process_data] puts three into a group and the fourth into none, so
    the sizes of the groups add up to three. *)
Lemma C2_a_row_without_symbol_is_in_no_group :
  missing base_columns (columns ex_raw_na) = [] /\
  length (rows ex_raw_na) = 4%nat /\
  exists data,
    process_data ex_raw_na "NIFTY" = ret data /\
    rows (futures data) = [ex_row "NIFTY-I"] /\
    rows (spot data) = [[Str "2024-01-01"; Str "09:15:00"; Str "NIFTY"; Num 1; Num 2; Num 3; Num 4]] /\
    rows (options data) = [ex_row "NIFTY24JANCE"] /\
    (length (rows (futures data)) + length (rows (spot data)) +
     length (rows (options data)))%nat <> length (rows ex_raw_na).
Proof.
  split; [reflexivity|]. split; [reflexivity|].
  eexists. split; [reflexivity|]. cbn [futures spot options rows length].
  split; [reflexivity|]. split; [reflexivity|]. split; [reflexivity|]. discriminate.
Qed.

(** C2, amended: on a frame with the nine columns under distinct labels
    [process_data] returns three groups that partition the rows that have
    a symbol: a row goes to futures exactly when its symbol is the
    instrument followed by [-I], to spot exactly when its symbol is the
    instrument (string equality, case sensitive), to options when its
    symbol is anything else but [<NA>], and to no group when its symbol is
    [<NA>]; no row is in two groups; the groups and the rows without
    symbol together are a rearrangement of the rows, so the sizes of the
    groups add up to the number of rows that have a symbol, which is the
    size of the input when no symbol is [<NA>]. *)
Theorem C2_rows_with_a_symbol_are_partitioned (df : DataFrame) (instrument : string) :
  missing base_columns (columns df) = [] ->
  List.NoDup (columns df) ->
  let R := map (restrict (columns df) base_columns) (rows df) in
  let fut := List.filter (in_leg instrument Fut) R in
  let spt := List.filter (in_leg instrument Spot) R in
  let opt := List.filter (in_leg instrument Opt) R in
  let none := List.filter no_symbol R in
  exists data,
    process_data df instrument = ret data /\
    rows (futures data) = fut /\
    rows (spot data) = map (restrict base_columns spot_columns) spt /\
    rows (options data) = opt /\
    (forall r, in_leg instrument Fut r = true <-> symbol_of r = Str (instrument +:+ "-I")) /\
    (forall r, in_leg instrument Spot r = true <-> symbol_of r = Str instrument) /\
    (forall r, in_leg instrument Opt r = true <->
               symbol_of r <> NA /\ symbol_of r <> Str (instrument +:+ "-I") /\
               symbol_of r <> Str instrument) /\
    (forall r, no_symbol r = true <-> symbol_of r = NA) /\
    (forall r l l', in_leg instrument l r = true -> in_leg instrument l' r = true -> l = l') /\
    (forall row, symbol_of (restrict (columns df) base_columns row) =
                 take_cell (columns df) row "symbol") /\
    R ≡ₚ fut ++ spt ++ opt ++ none /\
    (length (rows (futures data)) + length (rows (spot data)) +
     length (rows (options data)) + length none)%nat = length (rows df) /\
    (none = [] ->
     R ≡ₚ fut ++ spt ++ opt /\
     (length (rows (futures data)) + length (rows (spot data)) +
      length (rows (options data)))%nat = length (rows df)).
Proof.
  intros Hmiss _ R fut spt opt none. eexists. split; [now apply process_data_spec|].
  cbn [futures spot options rows]. fold R fut spt opt.
  assert (Hlen : (length fut + length (map (restrict base_columns spot_columns) spt) +
                  length opt + length none)%nat = length (rows df)).
  { rewrite length_map. unfold fut, spt, opt, none. rewrite filter_leg_length.
    unfold R. now rewrite length_map. }
  pose proof (filter_leg_perm instrument R) as Hperm. fold fut spt opt none in Hperm.
  split; [reflexivity|]. split; [reflexivity|]. split; [reflexivity|].
  split; [apply in_leg_fut|]. split; [apply in_leg_spot|]. split; [apply in_leg_opt|].
  split; [apply no_symbol_iff|]. split; [intros r l l'; apply in_leg_unique|].
  split; [reflexivity|]. split; [exact Hperm|]. split; [exact Hlen|].
  intros Hnone. rewrite Hnone in Hperm, Hlen. rewrite !app_nil_r in Hperm.
  cbn [length] in Hlen. rewrite Nat.add_0_r in Hlen. split; [exact Hperm | exact Hlen].
Qed.

Lemma C2_witness :
  missing base_columns (columns ex_raw) = [] /\ List.NoDup (columns ex_raw) /\
  exists data, process_data ex_raw "NIFTY" = ret data /\
               (length (rows (futures data)) + length (rows (spot data)) +
                length (rows (options data)))%nat = 3%nat.
Proof.
  assert (Hnd : List.NoDup (columns ex_raw)).
  { cbn. repeat constructor; cbn [In]; intuition discriminate. }
  split; [reflexivity|]. split; [exact Hnd|].
  destruct (C2_rows_with_a_symbol_are_partitioned ex_raw "NIFTY" eq_refl Hnd)
    as (data & Hd & _ & _ & _ & _ & _ & _ & _ & _ & _ & _ & _ & Hall).
  exists data. split; [exact Hd | now apply Hall].
Defined.

(** C3: no exception escapes a task: whatever was raised in its [try]
    block is turned into the failure [(date, instrument, message)] after one
    error line, and a task run alone always returns.  In the batch, under
    every schedule of the pool (of eleven decisions per task at least, which
    is enough for the pool to drain), every task completes exactly once,
    whatever happened in the others: the events of its worker and its
    result are those of a run of that task, its result is a failure of its
    own exactly when its worker wrote the error line, with the message of
    that line, and an exception of its fetch or of its classification is
    its failure.  [download_data] returns (it does not raise) the report
    made of exactly these failures. *)
Theorem C3_task_failures_are_contained (self : MarketDataDownloader) (a b : date)
  (instruments : list string) (max_workers : Z) (sched : list nat) (w : world) :
  valid a -> valid b -> 0 < max_workers ->
  (11 * length (make_tasks (days_between a b) instruments) <= length sched)%nat ->
  let tasks := make_tasks (days_between a b) instruments in
  (forall d i w0,
      exists w1 tr r,
        run (download_single_date_instrument self d i) w0 = (w1, tr, ret r) /\
        (r = None \/ exists e, r = Some (d, i, exc_msg e))) /\
  (forall d i w0 w1 tr e,
      run (task_body self d i) w0 = (w1, tr, raise e) ->
      run (download_single_date_instrument self d i) w0 =
      (w1, tr ++ [error_line d i e], ret (Some (d, i, exc_msg e)))) /\
  exists w' tr report (results : list (nat * option failure)),
    download_data self a b instruments max_workers sched w = Some (w', tr, ret report) /\
    map fst results ≡ₚ seq 0 (length tasks) /\
    (forall k r, In (k, r) results ->
       exists d i,
         tasks !! k = Some (d, i) /\
         task_outcome self (remote w) d i (own k tr) r /\
         ((r = None /\ forall msg, ~ In (Worker k, EvLog ERROR msg) tr) \/
          (exists e, r = Some (d, i, exc_msg e) /\ In (Worker k, error_line d i e) tr)) /\
         (forall e, In (Worker k, EvFetch (lower i) d) tr ->
                    remote w (lower i) d = raise e -> r = Some (d, i, exc_msg e)) /\
         (forall raw e, In (Worker k, EvFetch (lower i) d) tr ->
                        remote w (lower i) d = ret raw -> process_data raw i = raise e ->
                        r = Some (d, i, exc_msg e))) /\
    report = omap snd results.
Proof.
  intros Ha Hb Hmw Hlen tasks. split; [|split].
  - intros d i w0.
    destruct (run_task_outcome self d i w0) as (w1 & tr & r & Hrun & Ho).
    exists w1, tr, r. split; [exact Hrun|].
    destruct (outcome_result _ _ _ _ _ _ Ho) as [[H _]|(e & H & _)]; [now left|].
    right. now exists e.
  - intros d i w0 w1 tr e Hbody. unfold download_single_date_instrument.
    rewrite run_try_except, Hbody. reflexivity.
  - pose proof (date_range_spec a b Ha Hb) as Hrange.
    destruct (download_data_run self a b instruments max_workers sched w _ Hrange Hmw Hlen)
      as (w' & tr & results & Hrun & _ & Hperm & Hout & _).
    fold tasks in Hperm, Hout.
    exists w', tr, (omap snd results), results.
    split; [exact Hrun|]. split; [exact Hperm|]. split; [|reflexivity].
    intros k r Hin. destruct (Hout k r Hin) as (d & i & Hk & Ho).
    exists d, i. split; [exact Hk|]. split; [exact Ho|]. split; [|split].
    + destruct (outcome_result _ _ _ _ _ _ Ho) as [[H Hno]|(e & H & He & _)].
      * left. split; [exact H|]. intros msg Hmsg. apply (Hno msg). now apply in_own.
      * right. exists e. split; [exact H|]. now apply in_own.
    + intros e Hf. apply in_own in Hf. now apply (outcome_fetch_raised _ _ _ _ _ _ _ Ho).
    + intros raw e Hf. apply in_own in Hf.
      now apply (outcome_classify_raised _ _ _ _ _ _ _ _ Ho).
Qed.

Lemma C3_witness :
  valid monday /\ valid tuesday /\
  (11 * length (make_tasks (days_between monday tuesday) ["NIFTY"]) <=
   length (replicate 11 0%nat))%nat /\
  exists w' tr report,
    download_data ex_self monday tuesday ["NIFTY"] 4 (replicate 11 0%nat) ex_world_down
    = Some (w', tr, ret report).
Proof.
  assert (Ha : valid monday) by (apply validb_valid; reflexivity).
  assert (Hb : valid tuesday) by (apply validb_valid; reflexivity).
  assert (Hlen : (11 * length (make_tasks (days_between monday tuesday) ["NIFTY"]) <=
                  length (replicate 11 0%nat))%nat) by (vm_compute; lia).
  split; [exact Ha|]. split; [exact Hb|]. split; [exact Hlen|].
  destruct (C3_task_failures_are_contained ex_self monday tuesday ["NIFTY"] 4
              (replicate 11 0%nat) ex_world_down Ha Hb ltac:(lia) Hlen)
    as (_ & _ & w' & tr & report & results & H & _).
  now exists w', tr, report.
Defined.

(** C4 as the specification states it fails: the directories are
    created before the remote fetch is made.  On a Monday, with a remote
    that answers, the events at positions 1 to 3 are the three [mkdir]s
    and the fetch is only at position 4; with a remote that raises, the
    three directories exist afterwards although the fetch came last. *)
Lemma C4_directories_are_created_before_the_fetch :
  snd (fst (run (download_single_date_instrument ex_self monday "NIFTY") ex_world)) !! 1%nat
    = Some (EvMkdir ["market_data"; "nifty_fut"; "2024"; "1"]) /\
  snd (fst (run (download_single_date_instrument ex_self monday "NIFTY") ex_world)) !! 3%nat
    = Some (EvMkdir ["market_data"; "nifty_options"; "2024"; "1"]) /\
  snd (fst (run (download_single_date_instrument ex_self monday "NIFTY") ex_world)) !! 4%nat
    = Some (EvFetch "nifty" monday) /\
  snd (fst (run (download_single_date_instrument ex_self monday "NIFTY") ex_world_down))
    = [EvLog INFO "Processing NIFTY for date: 01/01/2024";
       EvMkdir ["market_data"; "nifty_fut"; "2024"; "1"];
       EvMkdir ["market_data"; "nifty_spot"; "2024"; "1"];
       EvMkdir ["market_data"; "nifty_options"; "2024"; "1"];
       EvFetch "nifty" monday;
       EvLog ERROR "Error processing NIFTY for 01/01/2024: no data"].
Proof. repeat split; vm_compute; reflexivity. Qed.

(** C4, amended: on a working day a task first logs its start, then
    creates the three directories, then makes the remote fetch, then
    classifies what the fetch returned, then writes the files of the
    non-empty groups; an exception at any step ends the task with one
    error line, and nothing of a later step has happened. *)
Theorem C4_directories_then_fetch_then_classify_then_write (self : MarketDataDownloader)
  (d : date) (i : string) (w w' : world) (tr : list event) (r : result (option failure)) :
  is_weekend d = false ->
  run (download_single_date_instrument self d i) w = (w', tr, r) ->
  let ds := plan self d i in
  (exists n e, tr = start_line d i :: firstn n (plan_events ds) ++ [error_line d i e]) \/
  (exists tail,
      tr = start_line d i :: plan_events ds ++ EvFetch (lower i) d :: tail /\
      ((exists e, tail = [error_line d i e]) \/
       (exists raw data n,
           remote w (lower i) d = ret raw /\ process_data raw i = ret data /\
           let writes := map write_event (writes_of (strftime "%d_%m_%Y" d) data ds i) in
           (tail = writes \/ exists e, tail = firstn n writes ++ [error_line d i e])))).
Proof.
  intros W Hrun ds. destruct (plan_clear w (plan self d i)) eqn:Hc.
  - right. rewrite (run_task_clear self d i w W Hc) in Hrun. fold ds in Hrun.
    destruct (remote w (lower i) d) as [e|raw] eqn:Hraw.
    { injection Hrun as <- <- <-. eexists. split; [reflexivity|]. left. now exists e. }
    destruct (process_data raw i) as [e|data] eqn:Hdata.
    { injection Hrun as <- <- <-. eexists. split; [reflexivity|]. left. now exists e. }
    destruct (run_writes (writes_of (strftime "%d_%m_%Y" d) data ds i) (with_dirs w ds))
      as [[w2 tr2] r2] eqn:Hw.
    pose proof (run_writes_trace _ _ _ _ _ Hw) as ([n Hn] & Hall).
    destruct r2 as [e|[]]; injection Hrun as <- <- <-;
      (eexists; split; [reflexivity|]); right; exists raw, data, n;
      (split; [first [reflexivity | assumption]|]);
      (split; [first [reflexivity | assumption]|]); cbv zeta.
    + right. exists e. now rewrite Hn.
    + left. now apply Hall.
  - left. destruct (run_task_blocked self d i w W Hc) as (w1 & n & e & Hrun' & _).
    rewrite Hrun' in Hrun. injection Hrun as <- <- <-. now exists n, e.
Qed.

Lemma C4_witness :
  is_weekend monday = false /\
  exists tail,
    snd (fst (run (download_single_date_instrument ex_self monday "NIFTY") ex_world_down)) =
    start_line monday "NIFTY" :: plan_events (plan ex_self monday "NIFTY") ++
    EvFetch (lower "NIFTY") monday :: tail.
Proof.
  assert (W : is_weekend monday = false) by reflexivity.
  split; [exact W|].
  assert (Hrun : forall x : world * list event * result (option failure),
             x = (fst (fst x), snd (fst x), snd x))
    by (intros [[? ?] ?]; reflexivity).
  destruct (C4_directories_then_fetch_then_classify_then_write ex_self monday "NIFTY"
              ex_world_down _ _ _ W (Hrun _)) as [(n & e & H)|(tail & H & _)].
  - exfalso. revert H. destruct n as [|[|[|[|n]]]]; vm_compute; discriminate.
  - exists tail. exact H.
Defined.

(** C5: whenever [process_data] returns, the spot group has exactly the
    columns date, time, symbol, open, high, low, close, with neither [oi]
    nor [volume], and every spot row has these seven cells; the futures
    and options groups keep the nine base columns. *)
Theorem C5_spot_columns (df : DataFrame) (instrument : string) (data : data_dict) :
  process_data df instrument = ret data ->
  columns (spot data) = ["date"; "time"; "symbol"; "open"; "high"; "low"; "close"] /\
  ~ In "oi" (columns (spot data)) /\ ~ In "volume" (columns (spot data)) /\
  List.Forall (fun row => length row = 7%nat) (rows (spot data)) /\
  columns (futures data) = base_columns /\ columns (options data) = base_columns /\
  List.Forall (fun row => length row = 9%nat) (rows (futures data)) /\
  List.Forall (fun row => length row = 9%nat) (rows (options data)).
Proof.
  intros H.
  destruct (missing base_columns (columns df)) as [|m ms] eqn:Hmiss.
  - rewrite (process_data_spec df instrument Hmiss) in H. injection H as <-.
    cbn [spot futures options columns rows].
    assert (Hrows : forall f, List.Forall (fun row : list cell => length row = 9%nat)
              (List.filter f (map (restrict (columns df) base_columns) (rows df)))).
    { intros f. apply List.Forall_forall. intros row Hin.
      apply List.filter_In in Hin as [Hin _]. apply in_map_iff in Hin as (row0 & <- & _).
      unfold restrict. now rewrite length_map. }
    repeat split; trivial.
    + cbn. intuition discriminate.
    + cbn. intuition discriminate.
    + apply List.Forall_forall. intros row Hin. apply in_map_iff in Hin as (row0 & <- & _).
      unfold restrict. now rewrite length_map.
  - rewrite process_data_missing in H by (rewrite Hmiss; discriminate). discriminate.
Qed.

Lemma C5_witness :
  process_data ex_raw "NIFTY" = ret ex_data /\
  columns (spot ex_data) = ["date"; "time"; "symbol"; "open"; "high"; "low"; "close"].
Proof.
  split; [reflexivity|].
  apply (C5_spot_columns ex_raw "NIFTY" ex_data). reflexivity.
Defined.




(** C7: directory resolution returns the three paths
    [rootDir / (instrument.lowercase + "_" + leg) / year / month], the same
    whatever the world; calling it again after it went through goes through
    again, returns the same paths and changes nothing; and it goes through
    whenever no regular file stands on the way to one of the three
    directories. *)
Theorem C7_directory_resolution_is_idempotent (self : MarketDataDownloader) (d : date)
  (i : string) (w w1 : world) (tr : list event) (ds : directories) :
  run (create_directory_structure self d i) w = (w1, tr, ret ds) ->
  dir_fut ds = base_path self /: (lower i +:+ "_" +:+ "fut") /: str (year d) /: str (month d) /\
  dir_spot ds = base_path self /: (lower i +:+ "_" +:+ "spot") /: str (year d) /: str (month d) /\
  dir_options ds =
    base_path self /: (lower i +:+ "_" +:+ "options") /: str (year d) /: str (month d) /\
  run (create_directory_structure self d i) w1 = (w1, tr, ret ds) /\
  (forall w2 w2' tr2 ds2,
      run (create_directory_structure self d i) w2 = (w2', tr2, ret ds2) -> ds2 = ds) /\
  (forall w2,
      (forall p q, In p [dir_fut ds; dir_spot ds; dir_options ds] -> In q (prefixes p) ->
                   files w2 !! q = None) ->
      exists w2' tr2, run (create_directory_structure self d i) w2 = (w2', tr2, ret ds)).
Proof.
  intros H. apply run_create_inv in H as (Hc & -> & -> & ->).
  split; [reflexivity|]. split; [reflexivity|]. split; [reflexivity|]. split; [|split].
  - rewrite run_create_ok by (now rewrite plan_clear_with_dirs).
    now rewrite with_dirs_idem.
  - intros w2 w2' tr2 ds2 H2. now apply run_create_inv in H2 as (_ & _ & _ & ->).
  - intros w2 Hfree. eexists _, _. apply run_create_ok. unfold plan_clear.
    rewrite !no_file_clear; [reflexivity|..]; intros q Hq; eapply Hfree; eauto; cbn; auto.
Qed.

Lemma C7_witness :
  run (create_directory_structure ex_self monday "NIFTY") ex_world =
    (with_dirs ex_world (plan ex_self monday "NIFTY"),
     plan_events (plan ex_self monday "NIFTY"), ret (plan ex_self monday "NIFTY")) /\
  dir_fut (plan ex_self monday "NIFTY") = ["market_data"; "nifty_fut"; "2024"; "1"] /\
  run (create_directory_structure ex_self monday "NIFTY")
      (with_dirs ex_world (plan ex_self monday "NIFTY")) =
    (with_dirs ex_world (plan ex_self monday "NIFTY"),
     plan_events (plan ex_self monday "NIFTY"), ret (plan ex_self monday "NIFTY")).
Proof.
  assert (H : run (create_directory_structure ex_self monday "NIFTY") ex_world =
              (with_dirs ex_world (plan ex_self monday "NIFTY"),
               plan_events (plan ex_self monday "NIFTY"), ret (plan ex_self monday "NIFTY")))
    by reflexivity.
  split; [exact H|]. split; [reflexivity|].
  apply (C7_directory_resolution_is_idempotent _ _ _ _ _ _ _ H).
Defined.

(** C8: the dates enumerated are exactly the calendar dates [d] with
    [start_date <= d < end_date], each once, and the tasks are these dates
    paired with the instruments; when [start_date >= end_date] there is no
    date and no task, and the batch returns an empty report at once. *)
Theorem C8_half_open_date_range (a b : date) :
  valid a -> valid b ->
  exists dates,
    date_range a b = Some (ret dates) /\
    (forall d, In d dates <-> valid d /\ date_le a d /\ date_lt d b) /\
    List.NoDup dates /\
    (forall instruments d i,
        In (d, i) (make_tasks dates instruments) <-> In d dates /\ In i instruments) /\
    (date_le b a ->
     dates = [] /\
     forall self instruments max_workers sched w,
       0 < max_workers ->
       make_tasks dates instruments = [] /\
       download_data self a b instruments max_workers sched w = Some (w, [], ret [])).
Proof.
  intros Ha Hb. exists (days_between a b).
  split; [now apply date_range_spec|]. split; [intros d; now apply in_days_between|].
  split; [now apply days_between_NoDup|]. split; [intros; apply in_make_tasks|].
  intros Hle. unfold date_le in Hle.
  assert (Hnil : days_between a b = []).
  { unfold days_between. rewrite seqZ_nil by (now apply not_before_ordinal). reflexivity. }
  split; [exact Hnil|]. intros self instruments max_workers sched w Hmw.
  rewrite Hnil. split; [reflexivity|].
  unfold download_data, date_range. rewrite (date_loop_empty _ a b Hle).
  replace (max_workers <=? 0) with false by (symmetry; apply Z.leb_gt; lia).
  now destruct sched.
Qed.

Lemma C8_witness :
  valid monday /\ valid next_monday /\
  exists dates,
    date_range monday next_monday = Some (ret dates) /\
    (In saturday dates <-> valid saturday /\ date_le monday saturday /\ date_lt saturday next_monday).
Proof.
  assert (Ha : valid monday) by (apply validb_valid; reflexivity).
  assert (Hb : valid next_monday) by (apply validb_valid; reflexivity).
  split; [exact Ha|]. split; [exact Hb|].
  destruct (C8_half_open_date_range monday next_monday Ha Hb) as (dates & Hr & Hin & _).
  exists dates. split; [exact Hr | apply Hin].
Defined.



(** C10: when the fetch of a task is made and the remote raises, the
    task ends with the failure [(date, instrument, message)]; by then the
    three leg directories exist, created before the fetch, and no file
    was written. *)
Theorem C10_directories_exist_after_a_failed_fetch (self : MarketDataDownloader) (d : date)
  (i : string) (w w' : world) (tr : list event) (r : result (option failure)) (e : exc) :
  is_weekend d = false ->
  run (download_single_date_instrument self d i) w = (w', tr, r) ->
  In (EvFetch (lower i) d) tr ->
  remote w (lower i) d = raise e ->
  let ds := plan self d i in
  r = ret (Some (d, i, exc_msg e)) /\
  tr = start_line d i :: [EvMkdir (dir_fut ds); EvMkdir (dir_spot ds); EvMkdir (dir_options ds)]
       ++ [EvFetch (lower i) d; error_line d i e] /\
  dir_fut ds ∈ dirs w' /\ dir_spot ds ∈ dirs w' /\ dir_options ds ∈ dirs w' /\
  dirs w' = dirs w ∪ list_to_set (prefixes (dir_fut ds)) ∪ list_to_set (prefixes (dir_spot ds))
              ∪ list_to_set (prefixes (dir_options ds)) /\
  files w' = files w.
Proof.
  intros W Hrun Hin Hraise ds. destruct (plan_clear w (plan self d i)) eqn:Hc.
  - rewrite (run_task_clear self d i w W Hc), Hraise in Hrun. injection Hrun as <- <- <-.
    split; [reflexivity|]. split; [reflexivity|].
    pose proof (plan_dirs_exist w self d i) as (H1 & H2 & H3). auto.
  - exfalso. destruct (run_task_blocked self d i w W Hc) as (w1 & n & e' & Hrun' & _).
    rewrite Hrun' in Hrun. injection Hrun as _ <- _.
    destruct Hin as [Hin|Hin]; [discriminate|]. apply in_app_or in Hin as [Hin|Hin].
    + destruct n as [|[|[|[|n]]]]; cbn [firstn plan_events In] in Hin;
        repeat destruct Hin as [Hin|Hin]; try discriminate; contradiction.
    + destruct Hin as [Hin|[]]. discriminate.
Qed.

Lemma C10_witness :
  is_weekend monday = false /\
  remote ex_world_down (lower "NIFTY") monday = raise (mkexc "FetchError" "no data") /\
  ["market_data"; "nifty_fut"; "2024"; "1"]
    ∈ dirs (fst (fst (run (download_single_date_instrument ex_self monday "NIFTY") ex_world_down))).
Proof.
  assert (W : is_weekend monday = false) by reflexivity.
  assert (Hr : remote ex_world_down (lower "NIFTY") monday = raise (mkexc "FetchError" "no data"))
    by reflexivity.
  split; [exact W|]. split; [exact Hr|].
  assert (Hrun : forall x : world * list event * result (option failure),
             x = (fst (fst x), snd (fst x), snd x))
    by (intros [[? ?] ?]; reflexivity).
  assert (Hin : In (EvFetch (lower "NIFTY") monday)
                  (snd (fst (run (download_single_date_instrument ex_self monday "NIFTY")
                               ex_world_down))))
    by (vm_compute; auto 10).
  destruct (C10_directories_exist_after_a_failed_fetch ex_self monday "NIFTY" ex_world_down
              _ _ _ _ W (Hrun _) Hin Hr) as (_ & _ & H & _).
  exact H.
Defined.


(* ===================================================================== *)
(** * Further properties: login, main, tasks and files                    *)
(* ===================================================================== *)

(** X1: [initialize_connection] returns a client only after
    [historical(email)] and [login(password)] went through and
    [check_login] was read as true, with the one line [Login Successful] in
    the log.  In every other case it raises: the exception of the step that
    raised, unchanged, or [ConnectionError("Login failed")] when
    [check_login] is false; the log then holds the one line
    [Error in MA login: <message>].  The file system is not touched. *)
Theorem X1_login_is_checked_logged_and_raised_again {session : Type}
  (lib : historical session) (email password : string) (w w' : world) (tr : list event)
  (r : result session) :
  run (initialize_connection lib email password) w = (w', tr, r) ->
  w' = w /\
  match r with
  | inr ma =>
      tr = [EvLog INFO "Login Successful"] /\
      check_login lib ma = ret true /\
      exists ma0, connect lib email = ret ma0 /\ login lib ma0 password = ret ma
  | inl e =>
      tr = [EvLog ERROR ("Error in MA login: " +:+ exc_msg e)] /\
      (connect lib email = raise e \/
       exists ma0,
         connect lib email = ret ma0 /\
         (login lib ma0 password = raise e \/
          exists ma,
            login lib ma0 password = ret ma /\
            (check_login lib ma = raise e \/
             (check_login lib ma = ret false /\ e = mkexc "ConnectionError" "Login failed"))))
  end.
Proof.
  unfold initialize_connection.
  destruct (connect lib email) as [e0|ma0] eqn:Hc; cbn [lift bind try_except call run exec event_of].
  { intros [= <- <- <-]. split; [reflexivity|]. split; [reflexivity|]. now left. }
  destruct (login lib ma0 password) as [e1|ma] eqn:Hl;
    cbn [lift bind try_except call run exec event_of].
  { intros [= <- <- <-]. split; [reflexivity|]. split; [reflexivity|].
    right. exists ma0. split; [reflexivity|]. now left. }
  destruct (check_login lib ma) as [e2|[|]] eqn:Hk;
    cbn [lift bind try_except call run exec event_of].
  - intros [= <- <- <-]. split; [reflexivity|]. split; [reflexivity|].
    right. exists ma0. split; [reflexivity|]. right. exists ma. split; [exact Hl|]. now left.
  - intros [= <- <- <-]. split; [reflexivity|]. split; [reflexivity|].
    split; [exact Hk|]. now exists ma0.
  - intros [= <- <- <-]. split; [reflexivity|]. split; [reflexivity|].
    right. exists ma0. split; [reflexivity|]. right. exists ma. split; [exact Hl|]. now right.
Qed.

Lemma X1_witness :
  fst (fst (run (initialize_connection ex_lib_refused "abc@gmail.com" "856544") ex_world))
  = ex_world.
Proof.
  assert (Hrun : forall x : world * list event * result bool,
             x = (fst (fst x), snd (fst x), snd x))
    by (intros [[? ?] ?]; reflexivity).
  apply (X1_login_is_checked_logged_and_raised_again ex_lib_refused "abc@gmail.com" "856544"
           ex_world _ _ _ (Hrun _)).
Defined.

(** What a login leaves behind: the world as it was and one line. *)
Lemma run_initialize_connection {session : Type} (lib : historical session)
  (email password : string) (w w' : world) (tr : list event) (r : result session) :
  run (initialize_connection lib email password) w = (w', tr, r) ->
  w' = w /\
  tr = [match r with
        | inl e => EvLog ERROR ("Error in MA login: " +:+ exc_msg e)
        | inr _ => EvLog INFO "Login Successful"
        end].
Proof.
  unfold initialize_connection.
  destruct (connect lib email) as [e0|ma0]; cbn [lift bind try_except call run exec event_of];
    [now intros [= <- <- <-]|].
  destruct (login lib ma0 password) as [e1|ma];
    cbn [lift bind try_except call run exec event_of]; [now intros [= <- <- <-]|].
  destruct (check_login lib ma) as [e2|[|]];
    cbn [lift bind try_except call run exec event_of]; now intros [= <- <- <-].
Qed.

Lemma run_init {session : Type} (lib : historical session) (cwd : path)
  (email password : string) (w : world) :
  run (init lib cwd email password) w =
  let '(w1, tr1, r1) := run (initialize_connection lib email password) w in
  (w1, tr1, match r1 with
            | inl e => raise e
            | inr ma => ret (mkself (cwd /: "market_data"), ma)
            end).
Proof.
  unfold init. rewrite run_bind.
  destruct (run (initialize_connection lib email password) w) as [[w1 tr1] [e|ma]];
    [reflexivity|].
  cbn [run]. now rewrite app_nil_r.
Qed.

(** X2: when the login fails, [main] raises the exception of the login,
    unchanged, after two lines in the log, [Error in MA login: <message>]
    and [Critical error: <message>]; no batch is started: whatever the
    schedule, there is no event of a worker, no directory is created, no
    fetch is made and no file is written. *)
Theorem X2_main_stops_when_the_login_fails {session : Type} (lib : historical session)
  (cwd : path) (sched : list nat) (w w0 : world) (tr0 : list event) (e : exc) :
  run (initialize_connection lib "abc@gmail.com" "856544") w = (w0, tr0, raise e) ->
  main lib cwd sched w =
  Some (w, [(Main, EvLog ERROR ("Error in MA login: " +:+ exc_msg e));
            (Main, EvLog ERROR ("Critical error: " +:+ exc_msg e))],
        raise e).
Proof.
  intros Hrun. unfold main, main_with. rewrite run_init, Hrun.
  destruct (run_initialize_connection _ _ _ _ _ _ _ Hrun) as [-> ->].
  reflexivity.
Qed.

Lemma X2_witness :
  main ex_lib_refused ["home"] [] ex_world =
  Some (ex_world,
        [(Main, EvLog ERROR "Error in MA login: Login failed");
         (Main, EvLog ERROR "Critical error: Login failed")],
        raise (mkexc "ConnectionError" "Login failed")).
Proof.
  assert (Hrun : forall x : world * list event * result bool,
             match snd x with
             | inl e => x = (fst (fst x), snd (fst x), raise e)
             | inr _ => True
             end)
    by (intros [[? ?] [?|?]]; [reflexivity | exact I]).
  exact (X2_main_stops_when_the_login_fails ex_lib_refused ["home"] [] ex_world _ _ _
           (Hrun (run (initialize_connection ex_lib_refused "abc@gmail.com" "856544") ex_world))).
Defined.

Lemma length_days_between (a b : date) :
  length (days_between a b) = Z.to_nat (toordinal b - toordinal a).
Proof. unfold days_between. now rewrite length_map, length_seqZ. Qed.

Lemma days_between_lookup (a b : date) (j : nat) :
  (j < length (days_between a b))%nat ->
  days_between a b !! j = Some (fromordinal (toordinal a + Z.of_nat j)).
Proof.
  rewrite length_days_between. intros Hj. unfold days_between.
  rewrite list_lookup_fmap, lookup_seqZ_lt by lia. reflexivity.
Qed.

Lemma length_make_tasks (dates : list date) (instruments : list string) :
  length (make_tasks dates instruments) = (length dates * length instruments)%nat.
Proof.
  unfold make_tasks. induction dates as [|d dates IH]; [reflexivity|].
  cbn [flat_map length]. rewrite length_app, length_map, IH. lia.
Qed.

Lemma make_tasks_lookup (dates : list date) (instruments : list string) (j m : nat)
  (d : date) (i : string) :
  dates !! j = Some d -> instruments !! m = Some i ->
  make_tasks dates instruments !! (j * length instruments + m)%nat = Some (d, i).
Proof.
  intros Hd Hi. revert j Hd. induction dates as [|d0 dates IH]; intros j Hd; [discriminate|].
  change (make_tasks (d0 :: dates) instruments)
    with (map (fun i => (d0, i)) instruments ++ make_tasks dates instruments).
  destruct j as [|j].
  - injection Hd as ->. cbn [Nat.mul Nat.add]. rewrite lookup_app_l.
    + change (map (fun i0 => (d, i0)) instruments) with (fmap (fun i0 => (d, i0)) instruments).
      now rewrite list_lookup_fmap, Hi.
    + rewrite length_map. now apply lookup_lt_Some in Hi.
  - cbn in Hd. rewrite lookup_app_r by (rewrite length_map; lia).
    rewrite length_map.
    replace (S j * length instruments + m - length instruments)%nat
      with (j * length instruments + m)%nat by lia.
    now apply IH.
Qed.

(** X3: for valid dates the batch has one task for every day from the
    start date up to, not including, the end date and every instrument:
    [end.toordinal() - start.toordinal()] days times the number of
    instruments, submitted day after day in calendar order and, within a
    day, in the order of the instruments. *)
Theorem X3_one_task_per_day_and_instrument (a b : date) :
  valid a -> valid b ->
  exists dates,
    date_range a b = Some (ret dates) /\
    length dates = Z.to_nat (toordinal b - toordinal a) /\
    (forall j, (j < length dates)%nat ->
       exists d, dates !! j = Some d /\ valid d /\ toordinal d = toordinal a + Z.of_nat j) /\
    forall instruments,
      length (make_tasks dates instruments) = (length dates * length instruments)%nat /\
      forall j m d i,
        dates !! j = Some d -> instruments !! m = Some i ->
        make_tasks dates instruments !! (j * length instruments + m)%nat = Some (d, i).
Proof.
  intros Ha Hb. exists (days_between a b). split; [now apply date_range_spec|].
  split; [apply length_days_between|]. split.
  - intros j Hj. rewrite (days_between_lookup a b j Hj). eexists. split; [reflexivity|].
    rewrite length_days_between in Hj.
    pose proof (toordinal_range a Ha) as Ra. pose proof (toordinal_range b Hb) as Rb.
    split; [apply fromordinal_valid | apply toordinal_fromordinal]; lia.
  - intros instruments. split; [apply length_make_tasks|]. apply make_tasks_lookup.
Qed.

Lemma X3_witness :
  exists dates,
    date_range monday next_monday = Some (ret dates) /\ length dates = 7%nat.
Proof.
  destruct (X3_one_task_per_day_and_instrument monday next_monday
              ltac:(apply validb_valid; reflexivity) ltac:(apply validb_valid; reflexivity))
    as (dates & Hr & Hl & _).
  exists dates. split; [exact Hr | exact Hl].
Defined.

(** X4: once the login has gone through, [main] does not raise, whatever
    the 3532 tasks of its batch did (1766 days from 2020-01-01 up to
    2024-11-01, two instruments, four workers): under every schedule of the
    pool of eleven decisions per task at least, the batch of the downloader
    rooted at [cwd / 'market_data'] returns its report, and [main] returns
    after logging [Data download completed successfully] when the report is
    empty and [Download completed with <n> errors] otherwise. *)
Theorem X4_main_completes_whatever_the_tasks_did {session : Type} (lib : historical session)
  (cwd : path) (sched : list nat) (w w0 : world) (tr0 : list event) (ma : session) :
  run (initialize_connection lib "abc@gmail.com" "856544") w = (w0, tr0, ret ma) ->
  11 * 3532 <= Z.of_nat (length sched) ->
  let self := mkself (cwd /: "market_data") in
  let a := mkdate 2020 1 1 in
  let b := mkdate 2024 11 1 in
  length (days_between a b) = 1766%nat /\
  length (make_tasks (days_between a b) ["NIFTY"; "BANKNIFTY"]) = 3532%nat /\
  exists w' tr report,
    download_data self a b ["NIFTY"; "BANKNIFTY"] 4 sched w = Some (w', tr, ret report) /\
    main lib cwd sched w =
    Some (w',
          (Main, EvLog INFO "Login Successful") :: tr ++
          [match report with
           | [] => (Main, EvLog INFO "Data download completed successfully")
           | _ => (Main, EvLog WARNING ("Download completed with " +:+
                                        str (Z.of_nat (length report)) +:+ " errors"))
           end],
          ret tt).
Proof.
  intros Hlogin Hlen self a b.
  assert (Ha : valid a) by (apply validb_valid; reflexivity).
  assert (Hb : valid b) by (apply validb_valid; reflexivity).
  assert (Hdays : length (days_between a b) = 1766%nat)
    by (rewrite length_days_between; reflexivity).
  assert (Htasks : length (make_tasks (days_between a b) ["NIFTY"; "BANKNIFTY"]) = 3532%nat)
    by (rewrite length_make_tasks, Hdays; reflexivity).
  split; [exact Hdays|]. split; [exact Htasks|].
  destruct (run_initialize_connection _ _ _ _ _ _ _ Hlogin) as [-> ->].
  destruct (download_data_run self a b ["NIFTY"; "BANKNIFTY"] 4 sched w _
              (date_range_spec a b Ha Hb) ltac:(lia) ltac:(rewrite Htasks; lia))
    as (w' & tr & results & Hrun & _).
  exists w', tr, (omap snd results). split; [exact Hrun|].
  unfold main, main_with. rewrite run_init, Hlogin. fold a b self. rewrite Hrun.
  reflexivity.
Qed.

Lemma X4_witness :
  exists w' tr,
    main ex_lib ["home"] (replicate (Z.to_nat (11 * 3532)) 0%nat) ex_world =
    Some (w', tr, ret tt).
Proof.
  assert (Hrun : forall x : world * list event * result bool,
             match snd x with
             | inl _ => True
             | inr ma => x = (fst (fst x), snd (fst x), ret ma)
             end)
    by (intros [[? ?] [?|?]]; [exact I | reflexivity]).
  assert (Hlen : 11 * 3532 <= Z.of_nat (length (replicate (Z.to_nat (11 * 3532)) 0%nat)))
    by (rewrite length_replicate; lia).
  destruct (X4_main_completes_whatever_the_tasks_did ex_lib ["home"] _ ex_world _ _ _
              (Hrun (run (initialize_connection ex_lib "abc@gmail.com" "856544") ex_world))
              Hlen)
    as (_ & _ & w' & tr & report & _ & Hmain).
  exists w'. eexists. exact Hmain.
Defined.






Lemma missing_nil (labels cols : list string) :
  missing labels cols = [] <-> forall c, In c labels -> In c cols.
Proof.
  unfold missing. induction labels as [|l labels IH]; cbn [List.filter].
  - split; [intros _ c [] | reflexivity].
  - destruct (existsb (String.eqb l) cols) eqn:E; cbn [negb].
    + rewrite IH. apply existsb_exists in E as (x & Hx & Heq). apply String.eqb_eq in Heq.
      subst x. split.
      * intros H c [<-|Hc]; auto.
      * intros H c Hc. apply H. now right.
    + split; [discriminate|]. intros H. exfalso.
      assert (Hin : In l cols) by (apply H; now left).
      assert (existsb (String.eqb l) cols = true); [|congruence].
      apply existsb_exists. exists l. split; [exact Hin | apply String.eqb_refl].
Qed.

Lemma in_missing (labels cols : list string) (c : string) :
  In c (missing labels cols) <-> In c labels /\ ~ In c cols.
Proof.
  unfold missing. rewrite filter_In, negb_true_iff. split; intros [H1 H2]; split; trivial.
  - intros Hin. assert (existsb (String.eqb c) cols = true); [|congruence].
    apply existsb_exists. exists c. split; [exact Hin | apply String.eqb_refl].
  - destruct (existsb (String.eqb c) cols) eqn:E; [|reflexivity].
    apply existsb_exists in E as (x & Hx & Heq). apply String.eqb_eq in Heq. now subst x.
Qed.

(** X6: on a frame with distinct column labels [process_data] returns
    exactly when the frame has each of the nine base columns, whatever its
    rows, its other columns and the order of its columns; it raises
    otherwise, and what it raises is a [KeyError]: a base column is
    missing.  Nothing else makes it raise. *)
Theorem X6_process_data_raises_only_for_a_missing_column (df : DataFrame)
  (instrument : string) :
  List.NoDup (columns df) ->
  ((exists data, process_data df instrument = ret data) <->
   (forall c, In c base_columns -> In c (columns df))) /\
  (forall e, process_data df instrument = raise e ->
     exc_class e = "KeyError" /\ exists c, In c base_columns /\ ~ In c (columns df)).
Proof.
  intros _. destruct (missing base_columns (columns df)) as [|m ms] eqn:Hm.
  - pose proof (proj1 (missing_nil _ _) Hm) as Hall. split.
    + split; [intros _; exact Hall|]. intros _. eexists. now apply process_data_spec.
    + intros e He. rewrite (process_data_spec df instrument Hm) in He. discriminate.
  - assert (Hne : missing base_columns (columns df) <> []) by (rewrite Hm; discriminate).
    assert (Hin : In m base_columns /\ ~ In m (columns df))
      by (apply in_missing; rewrite Hm; now left).
    rewrite (process_data_missing df instrument Hne). split.
    + split; [intros (data & H); discriminate|]. intros Hall. destruct Hin as [H1 H2].
      now apply Hall in H1.
    + intros e [= <-]. split; [reflexivity|]. now exists m.
Qed.

Lemma X6_witness :
  exists data, process_data ex_raw "NIFTY" = ret data.
Proof.
  assert (Hnd : List.NoDup (columns ex_raw))
    by (repeat (constructor; [cbn [In]; intuition discriminate|]); constructor).
  apply (proj1 (X6_process_data_raises_only_for_a_missing_column ex_raw "NIFTY" Hnd)).
  intros c Hc. exact Hc.
Defined.

Lemma empty_no_rows (cols : list string) : empty (mkframe cols []) = true.
Proof. unfold empty. cbn [rows length Nat.eqb]. apply orb_true_r. Qed.

(** X7: a working day for which the remote answers with no rows leaves
    no file and no failure: when the frame has the nine base columns and
    no row, the task creates its directories, makes the fetch, writes
    nothing and returns no result.  When the frame has no column at all,
    as an empty [DataFrame()] has, the classification raises a [KeyError]
    and the task returns a failure; no file is written either. *)
Theorem X7_a_day_without_rows_leaves_no_file (self : MarketDataDownloader) (d : date)
  (i : string) (w : world) (raw : DataFrame) :
  is_weekend d = false ->
  plan_clear w (plan self d i) = true ->
  remote w (lower i) d = ret raw ->
  (rows raw = [] -> (forall c, In c base_columns -> In c (columns raw)) ->
   exists w',
     run (download_single_date_instrument self d i) w =
     (w', start_line d i :: plan_events (plan self d i) ++ [EvFetch (lower i) d], ret None) /\
     files w' = files w) /\
  (columns raw = [] ->
   exists w' e,
     exc_class e = "KeyError" /\
     run (download_single_date_instrument self d i) w =
     (w', start_line d i :: plan_events (plan self d i) ++
          [EvFetch (lower i) d; error_line d i e],
      ret (Some (d, i, exc_msg e))) /\
     files w' = files w).
Proof.
  intros W Hclear Hraw. pose proof (run_task_clear self d i w W Hclear) as Hrun.
  cbv zeta in Hrun. rewrite Hraw in Hrun. split.
  - intros Hrows Hcols. apply missing_nil in Hcols.
    rewrite (process_data_spec raw i Hcols) in Hrun. rewrite Hrows in Hrun.
    cbn [map List.filter] in Hrun. unfold writes_of in Hrun.
    cbn [futures spot options] in Hrun. rewrite !empty_no_rows in Hrun.
    cbn [app run_writes] in Hrun.
    eexists. split; [exact Hrun | reflexivity].
  - intros Hcols.
    assert (Hne : missing base_columns (columns raw) <> []) by (rewrite Hcols; discriminate).
    rewrite (process_data_missing raw i Hne) in Hrun.
    eexists _, _. split; [|split; [exact Hrun | reflexivity]]. reflexivity.
Qed.

Lemma X7_witness :
  exists w',
    run (download_single_date_instrument ex_self monday "NIFTY") ex_world_no_rows =
    (w', [EvLog INFO "Processing NIFTY for date: 01/01/2024";
          EvMkdir ["market_data"; "nifty_fut"; "2024"; "1"];
          EvMkdir ["market_data"; "nifty_spot"; "2024"; "1"];
          EvMkdir ["market_data"; "nifty_options"; "2024"; "1"];
          EvFetch "nifty" monday],
     ret None).
Proof.
  assert (Hclear : plan_clear ex_world_no_rows (plan ex_self monday "NIFTY") = true)
    by reflexivity.
  destruct (X7_a_day_without_rows_leaves_no_file ex_self monday "NIFTY"
              ex_world_no_rows ex_no_rows eq_refl Hclear eq_refl) as [H _].
  destruct (H eq_refl (fun c Hc => Hc)) as (w' & Hrun & _).
  exists w'. exact Hrun.
Defined.









Lemma world_eta (w : world) : mkworld (remote w) (dirs w) (files w) = w.
Proof. now destruct w. Qed.

(** A [mkdir] in a world that already holds its directories. *)
Lemma mkdir_absorbed (p : path) (w w1 wf : world) (r : result unit) :
  mkdir p w = (w1, r) ->
  (forall q, In q (prefixes p) -> is_file wf q = is_file w q) ->
  dirs w1 ⊆ dirs wf ->
  mkdir p wf = (wf, r).
Proof.
  unfold mkdir. intros H Hfile Hdirs.
  assert (E : existsb (is_file wf) (prefixes p) = existsb (is_file w) (prefixes p)).
  { clear H Hdirs. induction (prefixes p) as [|q l IH]; [reflexivity|].
    cbn [existsb]. rewrite Hfile by now left. f_equal. apply IH.
    intros q' Hq'. apply Hfile. now right. }
  rewrite E. destruct (existsb (is_file w) (prefixes p)).
  - now injection H as _ <-.
  - injection H as <- <-. cbn [dirs] in Hdirs. f_equal.
    transitivity (mkworld (remote wf) (dirs wf) (files wf)); [|apply world_eta].
    f_equal. set_solver.
Qed.

Lemma mkdir_dirs (p : path) (w w1 : world) (r : result unit) :
  mkdir p w = (w1, r) -> dirs w ⊆ dirs w1.
Proof.
  unfold mkdir. destruct (existsb (is_file w) (prefixes p)); intros [= <- _];
    cbn [dirs]; set_solver.
Qed.

(** Creating the directories again, in a world that holds those the
    first call made and has the same files on the way to them. *)
Lemma run_create_absorbed (self : MarketDataDownloader) (d : date) (i : string)
  (w w1 wf : world) (tr : list event) (r : result directories) :
  run (create_directory_structure self d i) w = (w1, tr, r) ->
  (forall leg q, In leg leg_names -> In q (prefixes (leg_dir (base_path self) i leg d)) ->
                 is_file wf q = is_file w q) ->
  dirs w1 ⊆ dirs wf ->
  run (create_directory_structure self d i) wf = (wf, tr, r).
Proof.
  rewrite create_directory_structure_plan. unfold plan. cbn [dir_fut dir_spot dir_options].
  intros Hrun Hfile Hdirs. unfold leg_names in Hfile.
  cbn [bind call run exec event_of] in Hrun |- *.
  destruct (mkdir (leg_dir (base_path self) i "fut" d) w) as [wa ra] eqn:Ha.
  pose proof (mkdir_files _ _ _ _ Ha) as [Hfa _]. pose proof (mkdir_dirs _ _ _ _ Ha) as Hda.
  destruct ra as [e|[]]; cbn [bind call run exec event_of] in Hrun.
  { injection Hrun as <- <- <-.
    rewrite (mkdir_absorbed _ _ _ wf _ Ha); [reflexivity | | exact Hdirs].
    intros q Hq. apply (Hfile "fut"); cbn [In]; auto. }
  destruct (mkdir (leg_dir (base_path self) i "spot" d) wa) as [wb rb] eqn:Hb.
  pose proof (mkdir_files _ _ _ _ Hb) as [Hfb _]. pose proof (mkdir_dirs _ _ _ _ Hb) as Hdb.
  destruct rb as [e|[]]; cbn [bind call run exec event_of] in Hrun.
  { injection Hrun as <- <- <-.
    rewrite (mkdir_absorbed _ _ _ wf _ Ha);
      [| intros q Hq; apply (Hfile "fut"); cbn [In]; auto | set_solver].
    cbn [bind call run exec event_of].
    rewrite (mkdir_absorbed _ _ _ wf _ Hb); [reflexivity | | exact Hdirs].
    intros q Hq. rewrite (is_file_files w wa) by exact Hfa.
    apply (Hfile "spot"); cbn [In]; auto. }
  destruct (mkdir (leg_dir (base_path self) i "options" d) wb) as [wc rc] eqn:Hc.
  pose proof (mkdir_files _ _ _ _ Hc) as [Hfc _]. pose proof (mkdir_dirs _ _ _ _ Hc) as Hdc.
  assert (Hwc : w1 = wc /\ tr = plan_events (plan self d i) /\
                r = match rc with inl e => raise e | inr _ => ret (plan self d i) end).
  { destruct rc as [e|[]]; cbn [bind call run exec event_of] in Hrun;
      injection Hrun as <- <- <-; auto. }
  destruct Hwc as (-> & -> & ->).
  rewrite (mkdir_absorbed _ _ _ wf _ Ha);
    [| intros q Hq; apply (Hfile "fut"); cbn [In]; auto | set_solver].
  cbn [bind call run exec event_of].
  rewrite (mkdir_absorbed _ _ _ wf _ Hb);
    [| intros q Hq; rewrite (is_file_files w wa) by exact Hfa;
       apply (Hfile "spot"); cbn [In]; auto | set_solver].
  cbn [bind call run exec event_of].
  rewrite (mkdir_absorbed _ _ _ wf _ Hc);
    [| intros q Hq; rewrite (is_file_files w wb) by congruence;
       apply (Hfile "options"); cbn [In]; auto | exact Hdirs].
  destruct rc as [e|[]]; reflexivity.
Qed.

Lemma to_csv_absorbed (p : path) (df : DataFrame) (w w1 wf : world) (r : result unit) :
  to_csv p df w = (w1, r) ->
  dirs wf = dirs w ->
  (r = ret tt -> files wf !! p = Some df) ->
  to_csv p df wf = (wf, r).
Proof.
  unfold to_csv, is_dir. intros H Hd Hf. rewrite Hd.
  destruct (bool_decide (p = [] \/ p ∈ dirs w)); [now injection H as _ <-|].
  destruct (bool_decide (removelast p = [] \/ removelast p ∈ dirs w));
    [|now injection H as _ <-].
  injection H as _ <-. f_equal. rewrite <- Hd.
  transitivity (mkworld (remote wf) (dirs wf) (files wf)); [|apply world_eta].
  f_equal. apply insert_id. now apply Hf.
Qed.

(** Writing the same files again changes nothing. *)
Lemma run_writes_again (ws : list (path * DataFrame)) (w w' : world) (tr : list event)
  (r : result unit) :
  List.NoDup (map fst ws) ->
  run_writes ws w = (w', tr, r) -> run_writes ws w' = (w', tr, r).
Proof.
  revert w w' tr r. induction ws as [|[p df] ws IH]; intros w w' tr r Hnd; cbn [run_writes].
  - intros [= <- <- <-]. reflexivity.
  - cbn [map fst] in Hnd. apply List.NoDup_cons_iff in Hnd as [Hp Hnd].
    destruct (to_csv p df w) as [w1 [e|[]]] eqn:Hw.
    + intros [= <- <- <-]. pose proof (to_csv_spec _ _ _ _ _ Hw) as (Hd & _ & _).
      rewrite (to_csv_absorbed _ _ _ _ w1 _ Hw); [reflexivity | exact Hd | discriminate].
    + destruct (run_writes ws w1) as [[w2 tr2] r2] eqn:Hrest. intros [= <- <- <-].
      pose proof (to_csv_spec _ _ _ _ _ Hw) as (Hd & _ & Hf).
      pose proof (run_writes_frame _ _ _ _ _ Hrest) as (Hd2 & _ & Hf2).
      rewrite (to_csv_absorbed _ _ _ _ w2 _ Hw).
      * now rewrite (IH _ _ _ _ Hnd Hrest).
      * congruence.
      * intros _. rewrite (Hf2 p Hp), Hf. apply lookup_insert_eq.
Qed.

Lemma prefixes_length (p q : path) : In q (prefixes p) -> (length q <= length p)%nat.
Proof.
  revert q. induction p as [|s p IH]; intros q; cbn [prefixes]; [intros []|].
  intros [<-|H]; [cbn; lia|].
  apply in_map_iff in H as (q' & <- & Hq'). apply IH in Hq'. cbn [length]. lia.
Qed.

(** The files of a task are one step below its directories: none
    stands on the way to one of them. *)
Lemma writes_below_dirs (self : MarketDataDownloader) (d : date) (i : string) (s : string)
  (data : data_dict) (leg : string) (q : path) :
  In leg leg_names -> In q (prefixes (leg_dir (base_path self) i leg d)) ->
  ~ In q (map fst (writes_of s data (plan self d i) i)).
Proof.
  intros Hleg Hq Hin. apply prefixes_length in Hq.
  assert (Hlen : forall l, length (leg_dir (base_path self) i l d) =
                           (length (base_path self) + 3)%nat).
  { intros l. unfold leg_dir, joinpath. rewrite !length_app. cbn [length]. lia. }
  rewrite Hlen in Hq.
  apply in_map_iff in Hin as ([p df] & <- & Hin). cbn [fst] in Hq.
  unfold writes_of, plan in Hin. cbn [dir_fut dir_spot dir_options] in Hin.
  assert (Hp : length p = (length (base_path self) + 4)%nat); [|lia].
  apply in_app_or in Hin as [Hin|Hin]; [|apply in_app_or in Hin as [Hin|Hin]].
  - destruct (empty (futures data)); [contradiction|]. destruct Hin as [[= <- _]|[]].
    unfold joinpath at 1. rewrite length_app, Hlen. cbn [length]. lia.
  - destruct (empty (spot data)); [contradiction|]. destruct Hin as [[= <- _]|[]].
    unfold joinpath at 1. rewrite length_app, Hlen. cbn [length]. lia.
  - destruct (empty (options data)); [contradiction|]. destruct Hin as [[= <- _]|[]].
    unfold joinpath at 1. rewrite length_app, Hlen. cbn [length]. lia.
Qed.

Lemma run_create_files (self : MarketDataDownloader) (d : date) (i : string)
  (w w1 : world) (tr : list event) (r : result directories) :
  run (create_directory_structure self d i) w = (w1, tr, r) ->
  files w1 = files w /\ remote w1 = remote w.
Proof.
  rewrite create_directory_structure_plan. cbn [bind call run exec event_of].
  destruct (mkdir (dir_fut (plan self d i)) w) as [wa ra] eqn:Ha.
  pose proof (mkdir_files _ _ _ _ Ha) as [Hfa Hra].
  destruct ra as [e|[]]; cbn [bind call run exec event_of]; [now intros [= <- _ _]|].
  destruct (mkdir (dir_spot (plan self d i)) wa) as [wb rb] eqn:Hb.
  pose proof (mkdir_files _ _ _ _ Hb) as [Hfb Hrb].
  destruct rb as [e|[]]; cbn [bind call run exec event_of];
    [intros [= <- _ _]; split; congruence|].
  destruct (mkdir (dir_options (plan self d i)) wb) as [wc rc] eqn:Hc.
  pose proof (mkdir_files _ _ _ _ Hc) as [Hfc Hrc].
  destruct rc as [e|[]]; cbn [bind call run exec event_of];
    intros [= <- _ _]; split; congruence.
Qed.

(** X9: running a task a second time, on the file system the first run
    left and with a remote that answers as before, changes nothing: it
    issues the same events, returns the same result, and leaves every
    directory and every file as the first run left it. *)
Theorem X9_running_a_task_again_changes_nothing (self : MarketDataDownloader) (d : date)
  (i : string) (w w' : world) (tr : list event) (r : result (option failure)) :
  run (download_single_date_instrument self d i) w = (w', tr, r) ->
  run (download_single_date_instrument self d i) w' = (w', tr, r).
Proof.
  destruct (is_weekend d) eqn:W.
  { rewrite !(run_task_weekend self d i) by exact W. now intros [= <- <- <-]. }
  rewrite !(run_task_weekday self d i) by exact W.
  destruct (run (create_directory_structure self d i) w) as [[w1 tr1] r1] eqn:Hc.
  pose proof (run_create_files _ _ _ _ _ _ _ Hc) as [Hf1 Hr1].
  assert (Hagain : run (create_directory_structure self d i) w1 = (w1, tr1, r1)).
  { apply (run_create_absorbed self d i w w1 w1 tr1 r1 Hc); [|reflexivity].
    intros leg q _ _. now apply is_file_files. }
  destruct r1 as [e|ds].
  { intros [= <- <- <-]. now rewrite Hagain. }
  destruct (remote w1 (lower i) d) as [e|raw] eqn:Hraw.
  { intros [= <- <- <-]. now rewrite Hagain, Hraw. }
  destruct (process_data raw i) as [e|data] eqn:Hdata.
  { intros [= <- <- <-]. now rewrite Hagain, Hraw, Hdata. }
  apply run_create_inv in Hc as (_ & _ & _ & ->). rewrite run_save_data.
  destruct (run_writes (writes_of (strftime "%d_%m_%Y" d) data (plan self d i) i) w1)
    as [[w2 tr2] r2] eqn:Hw.
  pose proof (run_writes_frame _ _ _ _ _ Hw) as (Hd2 & Hr2 & Hf2).
  assert (Hcreate : run (create_directory_structure self d i) w2 =
                    (w2, tr1, ret (plan self d i))).
  { apply (run_create_absorbed self d i w1 w1 w2 tr1 _ Hagain); [|now rewrite Hd2].
    intros leg q Hleg Hq. unfold is_file. rewrite Hf2; [reflexivity|].
    now apply (writes_below_dirs self d i _ data leg). }
  assert (Hthen : run (download_single_date_instrument self d i) w2 =
                  (w2, start_line d i :: tr1 ++ EvFetch (lower i) d :: tr2 ++
                       match r2 with inl e => [error_line d i e] | inr _ => [] end,
                   ret match r2 with inl e => Some (d, i, exc_msg e) | inr _ => None end)).
  { rewrite (run_task_weekday self d i) by exact W. rewrite Hcreate, Hr2, Hraw, Hdata.
    rewrite run_save_data.
    rewrite (run_writes_again _ _ _ _ _ (writes_of_NoDup _ _ _ _) Hw).
    destruct r2 as [e|[]]; [reflexivity | now rewrite app_nil_r]. }
  rewrite (run_task_weekday self d i) in Hthen by exact W.
  destruct r2 as [e|[]]; intros [= <- <- <-]; rewrite Hthen; [reflexivity|].
  now rewrite app_nil_r.
Qed.

Lemma X9_witness :
  run (download_single_date_instrument ex_self monday "NIFTY")
      (fst (fst (run (download_single_date_instrument ex_self monday "NIFTY") ex_world))) =
  run (download_single_date_instrument ex_self monday "NIFTY") ex_world.
Proof.
  assert (Hrun : forall x : world * list event * result (option failure),
             x = (fst (fst x), snd (fst x), snd x))
    by (intros [[? ?] ?]; reflexivity).
  rewrite (Hrun (run (download_single_date_instrument ex_self monday "NIFTY") ex_world)) at 2.
  apply (X9_running_a_task_again_changes_nothing ex_self monday "NIFTY" ex_world _ _ _
           (Hrun _)).
Defined.

(** The batch with the events of the workers set apart from the lines
    the main thread writes at the end. *)
Lemma download_data_parts (self : MarketDataDownloader) (a b : date)
  (instruments : list string) (max_workers : Z) (sched : list nat) (w : world)
  (dates : list date) :
  date_range a b = Some (ret dates) ->
  0 < max_workers ->
  (11 * length (make_tasks dates instruments) <= length sched)%nat ->
  let tasks := make_tasks dates instruments in
  exists w' trw results,
    download_data self a b instruments max_workers sched w =
      Some (w', trw ++ report_log (omap snd results), ret (omap snd results)) /\
    (forall th ev, In (th, ev) trw -> exists k, th = Worker k) /\
    map fst results ≡ₚ seq 0 (length tasks) /\
    (forall k r, In (k, r) results ->
       exists d i, tasks !! k = Some (d, i) /\
                   task_outcome self (remote w) d i (own k trw) r).
Proof.
  intros Hdates Hmw Hlen tasks. unfold download_data. rewrite Hdates.
  replace (max_workers <=? 0) with false by (symmetry; apply Z.leb_gt; lia).
  fold tasks.
  set (Out := fun t : date * string => task_outcome self (remote w) (fst t) (snd t)).
  pose proof (pool_inv_init (Z.to_nat max_workers) tasks (remote w) Out 9 ltac:(lia) w eq_refl)
    as Hinit.
  destruct (run_pool_inv self (Z.to_nat max_workers) tasks (remote w) Out 9 ltac:(lia)
              (fun d i => task_conforms self (remote w) d i) sched _ _ Hinit Hlen)
    as (st & b' & Hrun & [Hr Hq _ Hf Ht Hp] & Hq0 & Ha0).
  rewrite Hq0, Ha0 in Hp. cbn [map app] in Hp.
  exists (pworld st), (ptrace st), (results_of (finished st)).
  rewrite Hrun, (collect_ok _ _ _ _ Hf), failures_of_results.
  split; [reflexivity|]. split; [|split].
  - intros th ev Hin. rewrite List.Forall_forall in Ht.
    apply Ht in Hin as (k & Hth & _). now exists k.
  - unfold results_of. rewrite map_map. exact Hp.
  - intros k r Hin. unfold results_of in Hin.
    apply in_map_iff in Hin as ([k' r'] & Heq & Hin). cbn [fst snd] in Heq.
    rewrite List.Forall_forall in Hf.
    apply Hf in Hin as ([d i] & x & Hk & Hx & Hout). cbn [fst snd] in Hk, Hx, Hout.
    subst r'. injection Heq as -> ->. now exists d, i.
Qed.

Lemma omap_length_le {A B : Type} (f : A -> option B) (l : list A) :
  (length (omap f l) <= length l)%nat.
Proof.
  induction l as [|x l IH]; [reflexivity|]. cbn. destruct (f x); cbn [length]; lia.
Qed.

(** X10: every failure of the report is in the log twice.  When the
    batch returns, the main thread has written nothing before the last
    worker event; it then writes nothing when the report is empty, and
    otherwise the line [Errors occurred during download:] followed by one
    line [<instrument> - <dd/mm/yyyy>: <message>] for each failure, in the
    order of the report.  Each failure of the report is the failure of a
    task of the batch, on a working day, whose worker wrote
    [Error processing <instrument> for <dd/mm/yyyy>: <message>] with the
    same message; and the report has no more entries than there are tasks. *)
Theorem X10_every_failure_is_logged_by_its_worker_and_in_the_summary
  (self : MarketDataDownloader) (a b : date) (instruments : list string) (max_workers : Z)
  (sched : list nat) (w : world) :
  valid a -> valid b -> 0 < max_workers ->
  (11 * length (make_tasks (days_between a b) instruments) <= length sched)%nat ->
  let tasks := make_tasks (days_between a b) instruments in
  exists w' trw report,
    download_data self a b instruments max_workers sched w =
      Some (w', trw ++ report_log report, ret report) /\
    (forall th ev, In (th, ev) trw -> th <> Main) /\
    (report = [] -> report_log report = []) /\
    (report <> [] ->
     report_log report =
       (Main, EvLog ERROR "Errors occurred during download:") ::
       map (fun f : failure =>
              (Main, EvLog ERROR (snd (fst f) +:+ " - " +:+ strftime "%d/%m/%Y" (fst (fst f)) +:+
                                  ": " +:+ snd f)))
           report) /\
    (forall d i msg, In (d, i, msg) report ->
       is_weekend d = false /\
       exists k, tasks !! k = Some (d, i) /\
         In (Worker k, EvLog ERROR ("Error processing " +:+ i +:+ " for " +:+
                                    strftime "%d/%m/%Y" d +:+ ": " +:+ msg)) trw) /\
    (length report <= length tasks)%nat.
Proof.
  intros Ha Hb Hmw Hlen tasks.
  destruct (download_data_parts self a b instruments max_workers sched w _
              (date_range_spec a b Ha Hb) Hmw Hlen)
    as (w' & trw & results & Hrun & Htr & Hperm & Hout).
  fold tasks in Hperm, Hout.
  exists w', trw, (omap snd results). split; [exact Hrun|]. split; [|split; [|split; [|split]]].
  - intros th ev Hin ->. destruct (Htr _ _ Hin) as (k & Hk). discriminate.
  - now intros ->.
  - intros Hne. destruct (omap snd results) as [|f report] eqn:E; [congruence|].
    unfold report_log. f_equal. apply map_ext. now intros [[d i] msg].
  - intros d i msg Hin. apply list_elem_of_In, list_elem_of_omap in Hin as ([k r] & Hin & Hr).
    cbn [snd] in Hr. subst r. apply list_elem_of_In in Hin.
    destruct (Hout k _ Hin) as (d' & i' & Hk & Ho).
    destruct (outcome_result _ _ _ _ _ _ Ho) as [[H _]|(e & H & He & W)]; [discriminate|].
    injection H as -> -> ->. split; [exact W|]. exists k. split; [exact Hk|].
    now apply in_own.
  - pose proof (Permutation_length Hperm) as HL. rewrite length_map, length_seq in HL.
    rewrite <- HL. apply omap_length_le.
Qed.

Lemma X10_witness :
  exists w' trw,
    download_data ex_self monday tuesday ["NIFTY"] 4 (replicate 11 0%nat) ex_world_down =
    Some (w', trw ++ [(Main, EvLog ERROR "Errors occurred during download:");
                      (Main, EvLog ERROR "NIFTY - 01/01/2024: no data")],
          ret [(monday, "NIFTY", "no data")]).
Proof.
  assert (Ha : valid monday) by (apply validb_valid; reflexivity).
  assert (Hb : valid tuesday) by (apply validb_valid; reflexivity).
  assert (Hlen : (11 * length (make_tasks (days_between monday tuesday) ["NIFTY"]) <=
                  length (replicate 11 0%nat))%nat) by (vm_compute; lia).
  destruct (X10_every_failure_is_logged_by_its_worker_and_in_the_summary ex_self monday tuesday
              ["NIFTY"] 4 (replicate 11 0%nat) ex_world_down Ha Hb ltac:(lia) Hlen)
    as (w' & trw & report & Hrun & _).
  exists w', trw.
  assert (Hrep : report = [(monday, "NIFTY", "no data")]).
  { assert (H : option_map snd (download_data ex_self monday tuesday ["NIFTY"] 4
                                  (replicate 11 0%nat) ex_world_down) =
                Some (ret [(monday, "NIFTY", "no data")])) by (vm_compute; reflexivity).
    rewrite Hrun in H. cbn [option_map snd] in H. now injection H as ->. }
  rewrite Hrun, Hrep. reflexivity.
Defined.






(* ===================================================================== *)
(** * Further properties: the schedule                                    *)
(* ===================================================================== *)





















